(** * Bank routing service: graph store, the two Dijkstra searches and the
    two route endpoints of [src/backend/index.js].

    Modelling conventions.
    - The objects [banks], [graph], [distances] and [predecessors] are used
      as dictionaries keyed by BIC strings: they are finite maps ([gmap]),
      which hold what the objects hold as their own properties.  A plain
      object also answers to the member names of [Object.prototype]
      ([prototype_names]): under such a name a lookup finds the inherited
      member, [in] is true and an assignment to [__proto__] is dropped.
      The maps do not model this.  The runs on concrete stores use no
      such name; a statement about arbitrary names that depends on a
      lookup finding nothing carries the condition that the names are
      [plain], for the requested BICs and, where the search reads them,
      for the keys and link ends of the graph ([plain_graph]).
    - A JavaScript number is an exact integer [Num z]: link times come from
      an INTEGER column, charges are read in a fixed-point unit, rounding of
      the REAL column is left out.  Sums of whole numbers are exact in
      JavaScript below 2^53; the statements that equate a returned weight
      with a sum keep the weights of the store below half of that
      ([exact_times], [exact_charges]).  [undefined] and [NaN] are
      modelled because the code produces them ([banks[k]] of an unknown
      key, and [number + undefined]).
    - A row of the charge table carries a number, a row of the link table a
      whole number of minutes.
    - The two [while] loops have no bound in the source; they take a fuel
      argument and answer [None] when it runs out.  A search gets one fuel
      for both loops; more fuel never changes an answer
      ([dijkstraFastest_fuel_mono], [dijkstraCheapest_fuel_mono]).
      [None] at every fuel says that the call returns no value.  For the
      relaxation loop this is a loop that goes on for ever.  A walk along
      the predecessors that never meets the start fills [path] until
      [path.push] raises [RangeError]: the lists of the model have no
      such limit, and [None] stands for that outcome too.
    - The [heap] package is not part of the repository: the searches are
      stated for every queue that meets its contract ([Heap]), and run on
      concrete stores with the list queue [list_heap]. *)

From Stdlib Require Import ZArith Lia.
From stdpp Require Import base option list gmap strings.

Local Open Scope Z_scope.

(** ** JavaScript values *)

(** The numbers the searches compute with. *)
Inductive jsval :=
| Undefined
| NaN
| Num (z : Z).

#[export] Instance jsval_eq_dec : EqDecision jsval.
Proof. solve_decision. Defined.

(** [a + b]: [undefined] converts to [NaN], which is absorbing. *)
Definition js_add (a b : jsval) : jsval :=
  match a, b with
  | Num x, Num y => Num (x + y)
  | _, _ => NaN
  end.

(** [a - b]. *)
Definition js_sub (a b : jsval) : jsval :=
  match a, b with
  | Num x, Num y => Num (x - y)
  | _, _ => NaN
  end.

(** [a < b]: false as soon as one operand is not a number. *)
Definition js_lt (a b : jsval) : bool :=
  match a, b with
  | Num x, Num y => x <? y
  | _, _ => false
  end.

(** [a > b]. *)
Definition js_gt (a b : jsval) : bool := js_lt b a.

(** Truthiness, as read by [!v] and [v || w]: [undefined], [NaN] and [0] are
    falsy. *)
Definition truthy (v : jsval) : bool :=
  match v with
  | Num z => negb (z =? 0)
  | _ => false
  end.

(** [newDist < (d || Infinity)].  When [d] is falsy the right operand is
    [Infinity], and [x < Infinity] holds exactly for the (finite) numbers. *)
Definition lt_or_infinity (newDist d : jsval) : bool :=
  if truthy d then js_lt newDist d
  else match newDist with Num _ => true | _ => false end.

(** A value naming a node: a BIC string, or [undefined] (a field missing
    from a request body, a lookup that found nothing). *)
Inductive nodeid :=
| Missing
| Bic (s : string).

#[export] Instance nodeid_eq_dec : EqDecision nodeid.
Proof. solve_decision. Defined.

(** The property key a value stands for in [obj[v]]: [undefined] is
    converted to the string "undefined". *)
Definition key (n : nodeid) : string :=
  match n with
  | Missing => "undefined"%string
  | Bic s => s
  end.

(** How [Array.prototype.join] prints an element: [undefined] is printed as
    the empty string. *)
Definition node_text (n : nodeid) : string :=
  match n with
  | Missing => EmptyString
  | Bic s => s
  end.

(** ** Graph store *)

(** [{ to: row.ToBIC, time: row.TimeTakenInMinutes }] *)
Record edge := Edge { to : string; time : Z }.

#[export] Instance edge_eq_dec : EqDecision edge.
Proof. solve_decision. Defined.

(** [banks[k]], for a key that [banks] holds itself or that is no member
    name of [Object.prototype] (for one of those the code finds the
    inherited member). *)
Definition charge (banks : gmap string Z) (k : string) : jsval :=
  match banks !! k with
  | Some c => Num c
  | None => Undefined
  end.

(** [graph[k] || []]: an array is truthy, also when it is empty.  As for
    [charge], a member name of [Object.prototype] that is no key of
    [graph] is not covered: the code finds a function there, which
    [for ... of] does not accept. *)
Definition edges_from (graph : gmap string (list edge)) (k : string) : list edge :=
  default [] (graph !! k).

(** First query of [loadDataToMemory]: [banks[row.BIC] = row.Charge]. *)
Definition load_banks (rows : list (string * Z)) (banks : gmap string Z) : gmap string Z :=
  foldl (fun b row => <[row.1 := row.2]> b) banks rows.

(** One row of the second query:
    [if (!graph[from]) graph[from] = []; graph[from].push({to, time})]. *)
Definition add_link (graph : gmap string (list edge)) (row : string * string * Z) : gmap string (list edge) :=
  let '(from, dest, t) := row in
  let graph1 := match graph !! from with
                | Some _ => graph
                | None => <[from := []]> graph
                end in
  <[from := edges_from graph1 from ++ [Edge dest t]]> graph1.

Definition load_links (rows : list (string * string * Z)) (graph : gmap string (list edge)) : gmap string (list edge) :=
  foldl add_link graph rows.

(** ** Priority queue *)

(** [{ node: ..., distance: ... }] *)
Record entry := Entry { node : nodeid; distance : jsval }.

#[export] Instance entry_eq_dec : EqDecision entry.
Proof. solve_decision. Defined.

(** The comparator handed to the queue: [(a, b) => a.distance - b.distance]. *)
Definition cmp (a b : entry) : jsval := js_sub (distance a) (distance b).

(** [cmp(a, b) < 0]: the queue orders [a] strictly before [b]. *)
Definition before (a b : entry) : bool := js_lt (cmp a b) (Num 0).

(** The distance of the entry is a number. *)
Definition numeric (e : entry) : Prop :=
  match distance e with Num _ => True | _ => False end.

(** The [heap] package is a dependency, not code of the repository: the
    searches are written against its contract.  [heap_items] is the bag of
    entries a queue holds; [heap_pop] hands out one of them, and when all
    distances are numbers none of the others is ordered strictly before
    it. *)
Class Heap (H : Type) := {
  heap_new : H;
  heap_push : entry -> H -> H;
  heap_pop : H -> option (entry * H);
  heap_empty : H -> bool;
  heap_items : H -> list entry;
  heap_items_new : heap_items heap_new = [];
  heap_items_push e h : heap_items (heap_push e h) ≡ₚ e :: heap_items h;
  heap_empty_items h : heap_empty h = true <-> heap_items h = [];
  heap_pop_none h : heap_pop h = None <-> heap_items h = [];
  heap_pop_some h e h' :
    heap_pop h = Some (e, h') -> heap_items h ≡ₚ e :: heap_items h';
  heap_pop_min h e h' :
    heap_pop h = Some (e, h') ->
    Forall numeric (heap_items h) ->
    Forall (fun y => before y e = false) (heap_items h')
}.

(** ** Shortest-path engine *)

(** The three locals of a search: [distances], [predecessors] and [pq]. *)
Record state (H : Type) := State {
  distances : gmap string jsval;
  predecessors : gmap string nodeid;
  pq : H
}.
Arguments State {H} _ _ _.
Arguments distances {H} _.
Arguments predecessors {H} _.
Arguments pq {H} _.

(** What a search returns: [null], or [{ path, time }] / [{ path, cost }]. *)
Inductive result :=
| NoPath
| Found (path : list nodeid) (weight : jsval).

#[export] Instance result_eq_dec : EqDecision result.
Proof. solve_decision. Defined.

Section Engine.
Context {H : Type} `{!Heap H}.
Variable banks : gmap string Z.
Variable graph : gmap string (list edge).

(** [distances[k]] *)
Definition recorded (d : gmap string jsval) (k : string) : jsval :=
  default Undefined (d !! k).

(** Body of the [for (let neighbor of ...)] loop.  [weight] is what the
    search adds for the edge: [neighbor.time] or [banks[neighbor.to]]. *)
Definition relax (weight : edge -> jsval) (current : entry) (st : state H) (neighbor : edge) : state H :=
  let newDist := js_add (distance current) (weight neighbor) in
  if lt_or_infinity newDist (recorded (distances st) (to neighbor)) then
    State (<[to neighbor := newDist]> (distances st))
          (<[to neighbor := node current]> (predecessors st))
          (heap_push (Entry (Bic (to neighbor)) newDist) (pq st))
  else st.

(** The [while (!pq.empty())] loop.  [None]: the fuel ran out before the
    loop was left.  A queue that is not empty pops an entry
    ([heap_empty_items], [heap_pop_none]), so the branch for a pop that
    gives nothing is never taken. *)
Fixpoint search (fuel : nat) (weight : edge -> jsval) (target : nodeid) (st : state H) : option (state H) :=
  match fuel with
  | O => None
  | S fuel' =>
      if heap_empty (pq st) then Some st
      else match heap_pop (pq st) with
           | None => Some st
           | Some (current, rest) =>
               let st' := State (distances st) (predecessors st) rest in
               if decide (node current = target) then Some st'
               else if js_gt (distance current) (recorded (distances st') (key (node current)))
                    then search fuel' weight target st'
                    else search fuel' weight target
                           (foldl (relax weight current) st' (edges_from graph (key (node current))))
           end
  end.

(** [predecessors[current]] *)
Definition predecessor (p : gmap string nodeid) (current : nodeid) : nodeid :=
  default Missing (p !! key current).

(** The [while (current !== start)] loop: [path] grows by [path.push].
    The list has no bound, an array has: a walk that never meets the
    start is [None] at every fuel here and ends with [RangeError] in
    Node. *)
Fixpoint walk_back (fuel : nat) (p : gmap string nodeid) (start current : nodeid) (path : list nodeid) : option (list nodeid) :=
  match fuel with
  | O => None
  | S fuel' =>
      if decide (current = start) then Some path
      else walk_back fuel' p start (predecessor p current) (path ++ [current])
  end.

(** What follows the relaxation loop in both searches: the [end in
    distances] test, the walk along the predecessors, [push(start)],
    [reverse()] and the returned object.  The test is that of a key
    which [distances] holds itself; [in] is also true of the member names
    of [Object.prototype], which are not covered. *)
Definition finish (fuel : nat) (start target : nodeid) (st : state H) : option result :=
  if decide (is_Some (distances st !! key target)) then
    match walk_back fuel (predecessors st) start target [] with
    | None => None
    | Some path => Some (Found (rev (path ++ [start])) (recorded (distances st) (key target)))
    end
  else Some NoPath.

(** The state both searches start from: [distances[start] = d0;
    pq.push({ node: start, distance: d0 })]. *)
Definition initial (start : nodeid) (d0 : jsval) : state H :=
  State {[ key start := d0 ]} ∅ (heap_push (Entry start d0) heap_new).

Definition time_of (neighbor : edge) : jsval := Num (time neighbor).

Definition charge_of (neighbor : edge) : jsval := charge banks (to neighbor).

Definition dijkstraFastest (fuel : nat) (start target : nodeid) : option result :=
  match search fuel time_of target (initial start (Num 0)) with
  | None => None
  | Some st => finish fuel start target st
  end.

Definition dijkstraCheapest (fuel : nat) (start target : nodeid) : option result :=
  match search fuel charge_of target (initial start (charge banks (key start))) with
  | None => None
  | Some st => finish fuel start target st
  end.

(** ** Query service *)

(** [req.body]: each field is a string or is not there. *)
Record request := Request { fromBank : nodeid; toBank : nodeid }.

Inductive response :=
| InvalidBank                               (* 400, "Invalid bank BIC" *)
| NoPathFound                               (* 404, "No path found" *)
| Route (route : string) (weight : jsval).  (* 200 *)

(** [!banks[fromBank] || !banks[toBank]] *)
Definition rejected (req : request) : bool :=
  negb (truthy (charge banks (key (fromBank req)))) ||
  negb (truthy (charge banks (key (toBank req)))).

(** [result.path.join(' -> ')] *)
Definition join (path : list nodeid) : string :=
  String.concat " -> " (map node_text path).

Definition respond (r : result) : response :=
  match r with
  | NoPath => NoPathFound
  | Found path w => Route (join path) w
  end.

(** [app.post('/api/fastestroute', ...)] *)
Definition fastestroute (fuel : nat) (req : request) : option response :=
  if rejected req then Some InvalidBank
  else respond <$> dijkstraFastest fuel (fromBank req) (toBank req).

(** [app.post('/api/cheapestroute', ...)] *)
Definition cheapestroute (fuel : nat) (req : request) : option response :=
  if rejected req then Some InvalidBank
  else respond <$> dijkstraCheapest fuel (fromBank req) (toBank req).

End Engine.

(** ** Vocabulary of the statements *)

(** The links of a table that leave [k], in the order of the rows. *)
Definition links_of (rows : list (string * string * Z)) (k : string) : list edge :=
  omap (fun row : string * string * Z =>
          if decide (row.1.1 = k) then Some (Edge row.1.2 row.2) else None) rows.


(** The nodes of the store: every BIC with a charge entry and every end of
    a link. *)
Definition node_set (banks : gmap string Z) (graph : gmap string (list edge)) : gset string :=
  dom banks ∪ dom graph ∪
  map_fold (fun _ links acc => list_to_set (map to links) ∪ acc) ∅ graph.

(** A directed route, as the links it takes one after the other. *)
Inductive route (graph : gmap string (list edge)) : string -> list edge -> string -> Prop :=
| route_stay (s : string) : route graph s [] s
| route_step (s : string) (link : edge) (links : list edge) (t : string) :
    link ∈ edges_from graph s ->
    route graph (to link) links t ->
    route graph s (link :: links) t.


(** Total time of a route. *)
Definition route_time (links : list edge) : Z :=
  foldr (fun link acc => time link + acc) 0 links.

(** Every link takes 0 minutes or more. *)
Definition nonnegative_times (graph : gmap string (list edge)) : Prop :=
  map_Forall (fun _ links => Forall (fun link => 0 <= time link) links) graph.

(** Every link takes 1 minute or more. *)
Definition positive_times (graph : gmap string (list edge)) : Prop :=
  map_Forall (fun _ links => Forall (fun link => 0 < time link) links) graph.

(** [k] has a charge entry, of 0 or more. *)
Definition charged (banks : gmap string Z) (k : string) : bool :=
  match banks !! k with
  | Some c => bool_decide (0 <= c)
  | None => false
  end.

(** Every end of a link has a charge entry, of 0 or more. *)
Definition nonnegative_charges (banks : gmap string Z) (graph : gmap string (list edge)) : Prop :=
  map_Forall (fun _ links => Forall (fun link => charged banks (to link) = true) links) graph.

(** The charge of a node as a number (0 without an entry). *)
Definition charge_number (banks : gmap string Z) (k : string) : Z :=
  default 0 (banks !! k).

(** Charges collected along a route, the start's not included. *)
Definition route_charges (banks : gmap string Z) (links : list edge) : Z :=
  foldr (fun link acc => charge_number banks (to link) + acc) 0 links.

(** The ends of the links of a graph, each once. *)
Definition link_ends (graph : gmap string (list edge)) : list string :=
  elements (list_to_set (map_to_list graph ≫= fun kl => to <$> kl.2) : gset string).

(** The member names of [Object.prototype], which every plain object
    answers to without having them as keys of its own. *)
Definition prototype_names : list string :=
  [ "constructor"; "__defineGetter__"; "__defineSetter__"; "hasOwnProperty";
    "__lookupGetter__"; "__lookupSetter__"; "isPrototypeOf";
    "propertyIsEnumerable"; "toString"; "valueOf"; "__proto__";
    "toLocaleString" ]%string.

(** [k] is none of them: [obj[k]] and [k in obj] find what [obj] holds
    itself, and [obj[k] = v] stores [v]. *)
Definition plain (k : string) : Prop := k ∉ prototype_names.

(** The keys of the graph and the ends of its links are plain. *)
Definition plain_graph (graph : gmap string (list edge)) : Prop :=
  map_Forall (fun k links => plain k /\ Forall (fun link => plain (to link)) links) graph.

(** The times of all links added up, each without its sign. *)
Definition total_time (graph : gmap string (list edge)) : Z :=
  map_fold (fun _ links acc => foldr (fun link a => Z.abs (time link) + a) 0 links + acc)
           0 graph.

(** Twice the times of all links stay below 2^53: the sums of link times
    that a search forms when no time is negative are exact. *)
Definition exact_times (graph : gmap string (list edge)) : Prop :=
  2 * total_time graph < 2 ^ 53.

(** The charges of all banks added up, each without its sign. *)
Definition total_charge (banks : gmap string Z) : Z :=
  map_fold (fun _ c acc => Z.abs c + acc) 0 banks.

(** The same for the sums of charges. *)
Definition exact_charges (banks : gmap string Z) : Prop :=
  2 * total_charge banks < 2 ^ 53.

(** A graph with the time of every link forgotten. *)
Definition erase_times (graph : gmap string (list edge)) : gmap string (list string) :=
  map to <$> graph.

(** ** Stores of the scenarios *)



(** Two parallel links A -> B, of 0 and 5 minutes. *)
Definition graph_0_5 : gmap string (list edge) :=
  load_links [("A", "B", 0); ("A", "B", 5)]%string ∅.

(** A cycle of two links of 0 minutes; C has a charge and no link. *)
Definition graph_zero_cycle : gmap string (list edge) :=
  load_links [("A", "B", 0); ("B", "A", 0)]%string ∅.

(** A 0-minute link into B, and a cycle between B and C on the way to D. *)
Definition graph_back_link : gmap string (list edge) :=
  load_links [("A", "B", 0); ("B", "C", 1); ("C", "B", 0); ("C", "D", 5)]%string ∅.

Definition banks_abc : gmap string Z :=
  load_banks [("A", 1); ("B", 1); ("C", 1)]%string ∅.

(** The scenario of the specification: charges A 1, B 2, C 1 and links
    A -> B (4), B -> C (1), A -> C (10). *)
Definition banks_121 : gmap string Z :=
  load_banks [("A", 1); ("B", 2); ("C", 1)]%string ∅.

Definition graph_4_1_10 : gmap string (list edge) :=
  load_links [("A", "B", 4); ("B", "C", 1); ("A", "C", 10)]%string ∅.

Definition graph_0_0_0 : gmap string (list edge) :=
  load_links [("A", "B", 0); ("B", "C", 0); ("A", "C", 0)]%string ∅.

(** A bank with charge 0, and a node that is the end of a link only. *)
Definition banks_zero : gmap string Z :=
  load_banks [("A", 0); ("B", 1)]%string ∅.

Definition graph_abc : gmap string (list edge) :=
  load_links [("A", "B", 4); ("B", "C", 1)]%string ∅.

(** A bank whose BIC is the text "undefined". *)
Definition banks_undefined : gmap string Z :=
  load_banks [("undefined", 1)]%string ∅.

(** A queue that meets the contract, used to run the searches on concrete
    graphs: the entries as a list, [pop] taking out a least one. *)
Fixpoint take_least (e : entry) (l : list entry) : entry * list entry :=
  match l with
  | [] => (e, [])
  | y :: l' =>
      if before y e
      then let '(m, r) := take_least y l' in (m, e :: r)
      else let '(m, r) := take_least e l' in (m, y :: r)
  end.

Definition list_pop (l : list entry) : option (entry * list entry) :=
  match l with
  | [] => None
  | e :: l' => Some (take_least e l')
  end.

Definition list_is_empty (l : list entry) : bool :=
  match l with
  | [] => true
  | _ :: _ => false
  end.

(** * Properties *)

(** ** The list queue meets the contract *)

Lemma before_numeric_lt (a b : entry) :
  numeric a -> numeric b ->
  exists x y, distance a = Num x /\ distance b = Num y /\ before a b = (x <? y).
Proof.
  destruct a as [an [| |x]], b as [bn [| |y]]; unfold numeric; simpl; try done.
  intros _ _. exists x, y. repeat split.
  unfold before, cmp; simpl. apply eq_iff_eq_true.
  rewrite !Z.ltb_lt. lia.
Qed.

Lemma take_least_perm (l : list entry) (e m : entry) (r : list entry) :
  take_least e l = (m, r) -> e :: l ≡ₚ m :: r.
Proof.
  revert e m r. induction l as [|y l IH]; intros e m r; simpl.
  - by intros [= <- <-].
  - destruct (before y e).
    + destruct (take_least y l) as [m' r'] eqn:E. intros [= <- <-].
      rewrite (IH _ _ _ E). apply Permutation_swap.
    + destruct (take_least e l) as [m' r'] eqn:E. intros [= <- <-].
      etrans; [apply Permutation_swap|].
      rewrite (IH _ _ _ E). apply Permutation_swap.
Qed.

Lemma take_least_least (l : list entry) (e m : entry) (r : list entry) :
  take_least e l = (m, r) -> Forall numeric (e :: l) ->
  before e m = false /\ Forall (fun y => before y m = false) r.
Proof.
  revert e m r. induction l as [|y l IH]; intros e m r; simpl.
  - intros [= <- <-] He. inversion_clear He as [|?? He' _]. split; [|done].
    destruct (before_numeric_lt e e He' He') as (x & y & -> & [= ->] & ->).
    apply Z.ltb_irrefl.
  - intros Heq Hall.
    inversion_clear Hall as [|?? He Hl]. pose proof Hl as Hyl.
    inversion_clear Hl as [|?? Hy Hl'].
    destruct (before y e) eqn:Hye.
    + destruct (take_least y l) as [m' r'] eqn:E. injection Heq as <- <-.
      destruct (IH _ _ _ E Hyl) as [Hym Hr].
      assert (Hm : numeric m').
      { apply take_least_perm in E. rewrite E in Hyl. by inversion Hyl. }
      destruct (before_numeric_lt y e Hy He) as (a & b & Ha & Hb & Hab).
      destruct (before_numeric_lt y m' Hy Hm) as (a' & c & Ha' & Hc & Hac).
      destruct (before_numeric_lt e m' He Hm) as (b' & c' & Hb' & Hc' & Hbc).
      assert (a' = a) by congruence. assert (b' = b) by congruence.
      assert (c' = c) by congruence. subst.
      rewrite Hab in Hye. rewrite Hac in Hym. rewrite Hbc.
      apply Z.ltb_lt in Hye. apply Z.ltb_ge in Hym.
      assert ((b <? c) = false) as Hf by (apply Z.ltb_ge; lia).
      split; [done|]. constructor; [by rewrite Hbc, Hf | done].
    + destruct (take_least e l) as [m' r'] eqn:E. injection Heq as <- <-.
      assert (Hel : Forall numeric (e :: l)) by (by constructor).
      destruct (IH _ _ _ E Hel) as [Hem Hr].
      assert (Hm : numeric m').
      { apply take_least_perm in E. rewrite E in Hel. by inversion Hel. }
      split; [done|]. constructor; [|done].
      destruct (before_numeric_lt y e Hy He) as (a & b & Ha & Hb & Hab).
      destruct (before_numeric_lt y m' Hy Hm) as (a' & c & Ha' & Hc & Hac).
      destruct (before_numeric_lt e m' He Hm) as (b' & c' & Hb' & Hc' & Hbc).
      assert (a' = a) by congruence. assert (b' = b) by congruence.
      assert (c' = c) by congruence. subst.
      rewrite Hab in Hye. rewrite Hbc in Hem. rewrite Hac.
      apply Z.ltb_ge in Hye, Hem. apply Z.ltb_ge. lia.
Qed.

#[export] Program Instance list_heap : Heap (list entry) := {|
  heap_new := [];
  heap_push e l := l ++ [e];
  heap_pop := list_pop;
  heap_empty := list_is_empty;
  heap_items l := l
|}.
Next Obligation.
  done.
Qed.
Next Obligation.
  intros e h; simpl. by rewrite Permutation_app_comm.
Qed.
Next Obligation.
  intros [|e h]; simpl; split; congruence.
Qed.
Next Obligation.
  intros [|e h]; simpl; split; congruence.
Qed.
Next Obligation.
  intros [|x l] e h'; simpl; [congruence|].
  intros [= Heq]. by apply take_least_perm.
Qed.
Next Obligation.
  intros [|x l] e h'; simpl; [congruence|].
  intros [= Heq] Hnum. by apply (take_least_least l x e h').
Qed.

(** ** Consequences of the queue contract *)

Section HeapFacts.
Context {H : Type} `{!Heap H}.

Lemma heap_pop_elem (h h' : H) (e : entry) :
  heap_pop h = Some (e, h') -> e ∈ heap_items h.
Proof.
  intros Hpop. rewrite (heap_pop_some _ _ _ Hpop). apply list_elem_of_here.
Qed.

Lemma heap_nonempty (h : H) :
  heap_items h <> [] ->
  heap_empty h = false /\ exists e h', heap_pop h = Some (e, h').
Proof.
  intros Hne. split.
  - destruct (heap_empty h) eqn:E; [|done]. by apply heap_empty_items in E.
  - destruct (heap_pop h) as [[e h']|] eqn:E; [eauto|].
    by apply heap_pop_none in E.
Qed.

(** A queue holding one entry hands out that entry and is empty afterwards. *)
Lemma heap_pop_singleton (h : H) (e : entry) :
  heap_items h ≡ₚ [e] ->
  heap_empty h = false /\ exists h', heap_pop h = Some (e, h') /\ heap_items h' = [].
Proof.
  intros Hone. apply Permutation_singleton_r in Hone.
  destruct (heap_nonempty h) as [Hemp (e' & h' & Hpop)]; [by rewrite Hone|].
  split; [done|]. exists h'.
  pose proof (heap_pop_some _ _ _ Hpop) as Hperm. rewrite Hone in Hperm.
  apply Permutation_singleton_l in Hperm. by injection Hperm as -> <-.
Qed.

(** When one entry is ordered strictly before all the others, [pop] has no
    choice. *)
Lemma heap_pop_forced (h : H) (e : entry) (l : list entry) :
  heap_items h ≡ₚ e :: l ->
  Forall numeric (e :: l) ->
  Forall (fun y => before e y = true) l ->
  heap_empty h = false /\ exists h', heap_pop h = Some (e, h') /\ heap_items h' ≡ₚ l.
Proof.
  intros Hitems Hnum Hfirst.
  destruct (heap_nonempty h) as [Hemp (e' & h' & Hpop)].
  { intros Hnil. rewrite Hnil in Hitems. by apply Permutation_nil_cons in Hitems. }
  split; [done|]. exists h'.
  pose proof (heap_pop_some _ _ _ Hpop) as Hperm.
  assert (Hnum' : Forall numeric (heap_items h)) by (by rewrite Hitems).
  pose proof (heap_pop_min _ _ _ Hpop Hnum') as Hmin.
  assert (e' = e) as ->.
  { assert (He' : e' ∈ e :: l) by (rewrite <- Hitems, Hperm; apply list_elem_of_here).
    apply elem_of_cons in He' as [->|He']; [done|].
    assert (Hbe : before e e' = true).
    { rewrite Forall_forall in Hfirst. by apply Hfirst. }
    assert (He : e ∈ e' :: heap_items h') by (rewrite <- Hperm, Hitems; apply list_elem_of_here).
    apply elem_of_cons in He as [->|He]; [done|].
    rewrite Forall_forall in Hmin. rewrite (Hmin _ He) in Hbe. done. }
  split; [done|]. rewrite Hitems in Hperm. by apply Permutation_cons_inv in Hperm.
Qed.

End HeapFacts.

(** ** The searches *)

Section EngineFacts.
Context {H : Type} `{!Heap H}.
Variable banks : gmap string Z.
Variable graph : gmap string (list edge).

(** One turn of the relaxation loop, by what was popped. *)
Lemma search_leave (fuel : nat) (weight : edge -> jsval) (target : nodeid)
    (st : state H) (current : entry) (rest : H) :
  heap_empty (pq st) = false ->
  heap_pop (pq st) = Some (current, rest) ->
  node current = target ->
  search graph (S fuel) weight target st
  = Some (State (distances st) (predecessors st) rest).
Proof.
  intros Hemp Hpop Hnode. simpl. rewrite Hemp, Hpop.
  by destruct (decide (node current = target)).
Qed.

Lemma search_turn (fuel : nat) (weight : edge -> jsval) (target : nodeid)
    (st : state H) (current : entry) (rest : H) :
  heap_empty (pq st) = false ->
  heap_pop (pq st) = Some (current, rest) ->
  node current <> target ->
  js_gt (distance current) (recorded (distances st) (key (node current))) = false ->
  search graph (S fuel) weight target st
  = search graph fuel weight target
      (foldl (relax weight current) (State (distances st) (predecessors st) rest)
         (edges_from graph (key (node current)))).
Proof.
  intros Hemp Hpop Hnode Hfresh. simpl. rewrite Hemp, Hpop.
  destruct (decide (node current = target)); [done|].
  simpl. by rewrite Hfresh.
Qed.

Lemma search_skip (fuel : nat) (weight : edge -> jsval) (target : nodeid)
    (st : state H) (current : entry) (rest : H) :
  heap_empty (pq st) = false ->
  heap_pop (pq st) = Some (current, rest) ->
  node current <> target ->
  js_gt (distance current) (recorded (distances st) (key (node current))) = true ->
  search graph (S fuel) weight target st
  = search graph fuel weight target (State (distances st) (predecessors st) rest).
Proof.
  intros Hemp Hpop Hnode Hstale. simpl. rewrite Hemp, Hpop.
  destruct (decide (node current = target)); [done|].
  simpl. by rewrite Hstale.
Qed.

(** More fuel does not change an answer. *)
Lemma search_fuel_mono (fuel fuel' : nat) (weight : edge -> jsval) (target : nodeid)
    (st st' : state H) :
  search graph fuel weight target st = Some st' ->
  (fuel <= fuel')%nat ->
  search graph fuel' weight target st = Some st'.
Proof.
  revert fuel' st. induction fuel as [|fuel IH]; intros fuel' st; [done|].
  intros Hrun Hle. destruct fuel' as [|fuel']; [lia|].
  simpl in *. destruct (heap_empty (pq st)); [done|].
  destruct (heap_pop (pq st)) as [[current rest]|]; [|done].
  destruct (decide (node current = target)); [done|].
  destruct (js_gt _ _); apply IH; (done || lia).
Qed.

Lemma walk_back_fuel_mono (fuel fuel' : nat) (p : gmap string nodeid)
    (start current : nodeid) (path path' : list nodeid) :
  walk_back fuel p start current path = Some path' ->
  (fuel <= fuel')%nat ->
  walk_back fuel' p start current path = Some path'.
Proof.
  revert fuel' current path. induction fuel as [|fuel IH]; intros fuel' current path; [done|].
  intros Hrun Hle. destruct fuel' as [|fuel']; [lia|].
  simpl in *. destruct (decide (current = start)); [done|].
  apply IH; (done || lia).
Qed.

Lemma finish_fuel_mono (fuel fuel' : nat) (start target : nodeid) (st : state H) (r : result) :
  finish fuel start target st = Some r ->
  (fuel <= fuel')%nat ->
  finish fuel' start target st = Some r.
Proof.
  unfold finish. intros Hrun Hle.
  destruct (decide (is_Some (distances st !! key target))); [|done].
  destruct (walk_back fuel _ _ _ _) as [path|] eqn:E; [|done].
  by rewrite (walk_back_fuel_mono _ _ _ _ _ _ _ E Hle).
Qed.

Lemma dijkstraFastest_fuel_mono (fuel fuel' : nat) (start target : nodeid) (r : result) :
  dijkstraFastest graph fuel start target = Some r ->
  (fuel <= fuel')%nat ->
  dijkstraFastest graph fuel' start target = Some r.
Proof.
  unfold dijkstraFastest. intros Hrun Hle.
  destruct (search graph fuel _ _ _) as [st|] eqn:E; [|done].
  rewrite (search_fuel_mono _ _ _ _ _ _ E Hle). by eapply finish_fuel_mono.
Qed.

Lemma dijkstraCheapest_fuel_mono (fuel fuel' : nat) (start target : nodeid) (r : result) :
  dijkstraCheapest banks graph fuel start target = Some r ->
  (fuel <= fuel')%nat ->
  dijkstraCheapest banks graph fuel' start target = Some r.
Proof.
  unfold dijkstraCheapest. intros Hrun Hle.
  destruct (search graph fuel _ _ _) as [st|] eqn:E; [|done].
  rewrite (search_fuel_mono _ _ _ _ _ _ E Hle). by eapply finish_fuel_mono.
Qed.

(** The queue of the initial state holds the start entry alone. *)
Lemma initial_items (start : nodeid) (d0 : jsval) :
  heap_items (pq (initial (H:=H) start d0)) ≡ₚ [Entry start d0].
Proof. unfold initial; simpl. by rewrite heap_items_push, heap_items_new. Qed.

(** The first turn of a search whose start is its target. *)
Lemma search_start_is_target (fuel : nat) (weight : edge -> jsval) (s : nodeid) (d0 : jsval) :
  exists st, search graph (S fuel) weight s (initial s d0) = Some st /\
    distances st = {[ key s := d0 ]} /\ predecessors st = ∅ /\ heap_items (pq st) = [].
Proof.
  destruct (heap_pop_singleton _ _ (initial_items s d0)) as [Hemp (rest & Hpop & Hrest)].
  eexists. split; [by eapply search_leave|]. done.
Qed.

Lemma finish_start_is_target (fuel : nat) (s : nodeid) (st : state H) (d0 : jsval) :
  distances st = {[ key s := d0 ]} ->
  finish (S fuel) s s st = Some (Found [s] d0).
Proof.
  intros Hd. unfold finish, recorded. rewrite Hd, lookup_singleton_eq.
  destruct (decide (is_Some (Some d0))) as [_|[]]; [|by eexists].
  simpl. by destruct (decide (s = s)).
Qed.


End EngineFacts.

(** ** Shape of a returned path *)

Section PathFacts.
Context {H : Type} `{!Heap H}.
Variable banks : gmap string Z.
Variable graph : gmap string (list edge).

(** The walk along the predecessors only appends to [path], and what it
    appends first is the node it starts from. *)
Lemma walk_back_shape (fuel : nat) (p : gmap string nodeid)
    (start current : nodeid) (path path' : list nodeid) :
  walk_back fuel p start current path = Some path' ->
  (current = start /\ path' = path) \/
  (current <> start /\ exists tail, path' = path ++ current :: tail).
Proof.
  revert current path. induction fuel as [|fuel IH]; intros current path; [done|].
  simpl. destruct (decide (current = start)) as [->|Hne].
  - intros [= <-]. by left.
  - intros Hrun. right. split; [done|].
    destruct (IH _ _ Hrun) as [[_ ->]|[_ [tail ->]]].
    + exists []. done.
    + exists (predecessor p current :: tail). by rewrite <- app_assoc.
Qed.

Lemma finish_path_ends (fuel : nat) (start target : nodeid) (st : state H)
    (path : list nodeid) (w : jsval) :
  finish fuel start target st = Some (Found path w) ->
  path <> [] /\ head path = Some start /\ last path = Some target.
Proof.
  unfold finish.
  destruct (decide (is_Some (distances st !! key target))); [|done].
  destruct (walk_back fuel _ _ _ _) as [walked|] eqn:E; [|done].
  intros [= <- <-]. rewrite rev_app_distr. simpl.
  split; [done|]. split; [done|].
  destruct (walk_back_shape _ _ _ _ _ _ E) as [[-> ->]|[_ [tail ->]]]; [done|].
  simpl. by rewrite app_comm_cons, last_snoc.
Qed.

(** C10. Whenever [dijkstraFastest] or [dijkstraCheapest] returns an object
    (not [null]), its path is not empty, begins with the start node and ends
    with the end node. *)
Theorem found_path_ends (fuel : nat) (start target : nodeid)
    (path : list nodeid) (w : jsval) :
  dijkstraFastest graph fuel start target = Some (Found path w) \/
  dijkstraCheapest banks graph fuel start target = Some (Found path w) ->
  path <> [] /\ head path = Some start /\ last path = Some target.
Proof.
  unfold dijkstraFastest, dijkstraCheapest. intros [Hrun|Hrun].
  - destruct (search graph fuel _ _ _) as [st|]; [|done].
    by eapply finish_path_ends.
  - destruct (search graph fuel _ _ _) as [st|]; [|done].
    by eapply finish_path_ends.
Qed.

End PathFacts.

(** ** The cheapest search does not read link times *)

Section TimeBlind.
Context {H : Type} `{!Heap H}.
Variable banks : gmap string Z.

Lemma relax_charge_to (current : entry) (st : state H) (e1 e2 : edge) :
  to e1 = to e2 ->
  relax (charge_of banks) current st e1 = relax (charge_of banks) current st e2.
Proof. unfold relax, charge_of. by intros ->. Qed.

Lemma foldl_relax_charge_to (current : entry) (l1 l2 : list edge) (st : state H) :
  map to l1 = map to l2 ->
  foldl (relax (charge_of banks) current) st l1
  = foldl (relax (charge_of banks) current) st l2.
Proof.
  revert l2 st. induction l1 as [|e1 l1 IH]; intros [|e2 l2] st; simpl; try done.
  intros [= Hto Hrest]. rewrite (relax_charge_to _ _ _ _ Hto). by apply IH.
Qed.

Lemma erase_times_edges_from (g1 g2 : gmap string (list edge)) (k : string) :
  erase_times g1 = erase_times g2 ->
  map to (edges_from g1 k) = map to (edges_from g2 k).
Proof.
  intros Heq. unfold edges_from.
  assert (Hk : erase_times g1 !! k = erase_times g2 !! k) by (by rewrite Heq).
  unfold erase_times in Hk. rewrite !lookup_fmap in Hk.
  destruct (g1 !! k), (g2 !! k); simpl in *; congruence.
Qed.

Lemma search_charge_erase_times (g1 g2 : gmap string (list edge)) (fuel : nat)
    (target : nodeid) (st : state H) :
  erase_times g1 = erase_times g2 ->
  search g1 fuel (charge_of banks) target st = search g2 fuel (charge_of banks) target st.
Proof.
  intros Heq. revert st. induction fuel as [|fuel IH]; intros st; [done|].
  simpl. destruct (heap_empty (pq st)); [done|].
  destruct (heap_pop (pq st)) as [[current rest]|]; [|done].
  destruct (decide (node current = target)); [done|].
  destruct (js_gt _ _); [apply IH|].
  rewrite (foldl_relax_charge_to current _ (edges_from g2 (key (node current)))).
  - apply IH.
  - by apply erase_times_edges_from.
Qed.

(** C8. Two graphs that differ in link times only (with the times erased
    they are the same adjacency map; the charges are shared) give the same
    outcome of [dijkstraCheapest] and the same response of the cheapest
    route endpoint, for every start and end. *)
Theorem cheapest_ignores_times (g1 g2 : gmap string (list edge)) (fuel : nat)
    (start target : nodeid) :
  erase_times g1 = erase_times g2 ->
  dijkstraCheapest banks g1 fuel start target = dijkstraCheapest banks g2 fuel start target /\
  cheapestroute banks g1 fuel (Request start target)
  = cheapestroute banks g2 fuel (Request start target).
Proof.
  intros Heq.
  assert (Hsame : dijkstraCheapest banks g1 fuel start target
                  = dijkstraCheapest banks g2 fuel start target).
  { unfold dijkstraCheapest. by rewrite (search_charge_erase_times g1 g2). }
  split; [done|]. unfold cheapestroute; simpl. by rewrite Hsame.
Qed.

End TimeBlind.

(** ** The request check *)

Section Validation.
Context {H : Type} `{!Heap H}.
Variable banks : gmap string Z.
Variable graph : gmap string (list edge).

Lemma rejected_no_entry (req : request) :
  banks !! key (fromBank req) = None \/ banks !! key (toBank req) = None ->
  rejected banks req = true.
Proof.
  unfold rejected, charge. intros [-> | ->]; simpl; [done|].
  apply orb_true_r.
Qed.

Lemma rejected_nonzero (req : request) (c1 c2 : Z) :
  banks !! key (fromBank req) = Some c1 ->
  banks !! key (toBank req) = Some c2 ->
  c1 <> 0 -> c2 <> 0 ->
  rejected banks req = false.
Proof.
  unfold rejected, charge. intros -> -> Hc1 Hc2; simpl.
  apply Z.eqb_neq in Hc1, Hc2. by rewrite Hc1, Hc2.
Qed.

Lemma respond_not_invalid (r : option result) :
  respond <$> r <> Some InvalidBank.
Proof. by destruct r as [[|path w]|]. Qed.

(** C3 (amended). Both endpoints answer 400 "Invalid bank BIC" whenever one
    of the two requested BICs is no member name of [Object.prototype] and
    has no charge entry in [banks]; when both are no such names and have
    an entry with a charge other than 0, the check passes and the answer
    is the one derived from the search (404 for [null], 200 with the route
    otherwise), never the 400. *)
Theorem route_validation (fuel : nat) (req : request) :
  (plain (key (fromBank req)) /\ banks !! key (fromBank req) = None \/
   plain (key (toBank req)) /\ banks !! key (toBank req) = None ->
   fastestroute banks graph fuel req = Some InvalidBank /\
   cheapestroute banks graph fuel req = Some InvalidBank) /\
  (forall c1 c2 : Z,
     plain (key (fromBank req)) -> plain (key (toBank req)) ->
     banks !! key (fromBank req) = Some c1 ->
     banks !! key (toBank req) = Some c2 ->
     c1 <> 0 -> c2 <> 0 ->
     fastestroute banks graph fuel req
     = respond <$> dijkstraFastest graph fuel (fromBank req) (toBank req) /\
     cheapestroute banks graph fuel req
     = respond <$> dijkstraCheapest banks graph fuel (fromBank req) (toBank req) /\
     fastestroute banks graph fuel req <> Some InvalidBank /\
     cheapestroute banks graph fuel req <> Some InvalidBank).
Proof.
  split.
  - intros Hno. unfold fastestroute, cheapestroute.
    rewrite (rejected_no_entry req); [done|].
    destruct Hno as [[_ Hno]|[_ Hno]]; auto.
  - intros c1 c2 _ _ H1 H2 Hc1 Hc2. unfold fastestroute, cheapestroute.
    rewrite (rejected_nonzero req c1 c2 H1 H2 Hc1 Hc2).
    repeat split; (done || apply respond_not_invalid).
Qed.

(** C9 (amended). Provided [banks] has no entry under the key "undefined"
    (the key a missing field is looked up with), a request whose [fromBank]
    or [toBank] is missing is answered 400 "Invalid bank BIC" by both
    endpoints, without a search. *)
Theorem missing_field_rejected (fuel : nat) (req : request) :
  banks !! "undefined"%string = None ->
  fromBank req = Missing \/ toBank req = Missing ->
  fastestroute banks graph fuel req = Some InvalidBank /\
  cheapestroute banks graph fuel req = Some InvalidBank.
Proof.
  intros Hno Hmiss. unfold fastestroute, cheapestroute.
  rewrite rejected_no_entry; [done|].
  destruct Hmiss as [-> | ->]; simpl; auto.
Qed.

End Validation.

(** ** Loading keeps every link *)

Lemma add_link_edges (graph : gmap string (list edge)) (row : string * string * Z) (k : string) :
  edges_from (add_link graph row) k
  = edges_from graph k ++ links_of [row] k.
Proof.
  destruct row as [[from dest] t]. unfold add_link, links_of, edges_from. simpl.
  destruct (decide (from = k)) as [->|Hne].
  - rewrite lookup_insert_eq. simpl.
    destruct (graph !! k) as [l|] eqn:Hk; simpl; [by rewrite Hk|].
    by rewrite lookup_insert_eq.
  - rewrite lookup_insert_ne by done. simpl. rewrite app_nil_r.
    destruct (graph !! from); [done|]. by rewrite lookup_insert_ne.
Qed.

Lemma load_links_edges (rows : list (string * string * Z)) (graph : gmap string (list edge))
    (k : string) :
  edges_from (load_links rows graph) k = edges_from graph k ++ links_of rows k.
Proof.
  revert graph. induction rows as [|row rows IH]; intros graph.
  - unfold links_of. simpl. by rewrite app_nil_r.
  - unfold load_links in *. simpl. rewrite IH, add_link_edges, <- app_assoc.
    f_equal. unfold links_of. simpl. by destruct (decide (row.1.1 = k)).
Qed.

(** ** Runs on the scenarios, for every queue that meets the contract *)

Lemma relax_eval {H : Type} `{!Heap H} (weight : edge -> jsval) (current : entry)
    (d : gmap string jsval) (p : gmap string nodeid) (q : H) (neighbor : edge) :
  relax weight current (State d p q) neighbor
  = if lt_or_infinity (js_add (distance current) (weight neighbor)) (recorded d (to neighbor))
    then State (<[to neighbor := js_add (distance current) (weight neighbor)]> d)
               (<[to neighbor := node current]> p)
               (heap_push (Entry (Bic (to neighbor))
                                 (js_add (distance current) (weight neighbor))) q)
    else State d p q.
Proof. reflexivity. Qed.

Ltac eval_closed t :=
  let v := eval vm_compute in t in change t with v.

(** Relaxes, one after the other, the links of the node just popped; the
    maps are closed terms, so each test is decided by evaluation. *)
Ltac run_relax :=
  unfold initial;
  cbn [foldl distances predecessors pq node distance key];
  repeat match goal with
  | |- context [edges_from ?g ?k] => progress eval_closed (edges_from g k); cbn [foldl]
  end;
  repeat (rewrite relax_eval;
          match goal with
          | |- context [lt_or_infinity ?a ?b] => eval_closed (lt_or_infinity a b)
          end;
          cbv beta iota;
          repeat match goal with
          | |- context [js_add ?a ?b] => eval_closed (js_add a b)
          end;
          cbn [to node]).

Section Runs.
Context {H : Type} `{!Heap H}.




Lemma fastest_0_5 (fuel : nat) :
  dijkstraFastest graph_0_5 (S (S fuel)) (Bic "A") (Bic "B")
  = Some (Found [Bic "A"; Bic "B"] (Num 5)).
Proof.
  unfold dijkstraFastest.
  destruct (heap_pop_singleton _ _ (initial_items (Bic "A") (Num 0)))
    as [Hemp (rest & Hpop & Hrest)].
  rewrite (search_turn _ _ _ _ _ _ _ Hemp Hpop); [|done|done].
  run_relax.
  match goal with |- context [search _ _ _ _ ?st] => set (st1 := st) end.
  assert (Hitems : heap_items (pq st1)
                   ≡ₚ [Entry (Bic "B") (Num 5); Entry (Bic "B") (Num 0)]).
  { unfold st1; cbn [pq]. by rewrite !heap_items_push, Hrest. }
  destruct (heap_nonempty (pq st1)) as [Hemp1 (e & rest1 & Hpop1)].
  { intros Hnil. rewrite Hnil in Hitems. by apply Permutation_nil_cons in Hitems. }
  assert (Hnode : node e = Bic "B").
  { apply heap_pop_elem in Hpop1. rewrite Hitems in Hpop1.
    apply elem_of_cons in Hpop1 as [->|Hpop1]; [done|].
    by apply list_elem_of_singleton in Hpop1 as ->. }
  rewrite (search_leave _ _ _ _ _ _ _ Hemp1 Hpop1 Hnode).
  unfold st1; cbn [distances predecessors]. by vm_compute.
Qed.

(** C1 (the code departs from it). On the graph with the parallel links
    A -> B of 0 and 5 minutes, the one-link route over the first has total
    time 0, and [dijkstraFastest("A", "B")] returns time 5, which the
    fastest route endpoint sends back. *)
Theorem fastest_time_above_a_route (fuel : nat) :
  nonnegative_times graph_0_5 /\
  route graph_0_5 "A" [Edge "B" 0] "B" /\
  route_time [Edge "B" 0] = 0 /\
  dijkstraFastest graph_0_5 (S (S fuel)) (Bic "A") (Bic "B")
  = Some (Found [Bic "A"; Bic "B"] (Num 5)) /\
  fastestroute banks_abc graph_0_5 (S (S fuel)) (Request (Bic "A") (Bic "B"))
  = Some (Route "A -> B" (Num 5)).
Proof.
  split; [unfold nonnegative_times; compute_done|].
  split; [|split; [done | split; [apply fastest_0_5|]]].
  - apply route_step; [|apply route_stay].
    eval_closed (edges_from graph_0_5 "A"). apply list_elem_of_here.
  - unfold fastestroute.
    replace (rejected banks_abc (Request (Bic "A") (Bic "B"))) with false by (by vm_compute).
    cbn [fromBank toBank]. by rewrite fastest_0_5.
Qed.

(** C4 (the code departs from it). In the first turn of that run the link
    of 0 minutes records distance 0 for B; the link of 5 minutes is then
    relaxed against a recorded distance it does not improve ([5 < 0] is
    false), and still B's distance, predecessor and a queue entry are
    written: the recorded distance of B goes from 0 up to 5. *)
Theorem relax_raises_recorded_zero (q : H) :
  let current := Entry (Bic "A") (Num 0) in
  let st0 := State {[ "A"%string := Num 0 ]} ∅ q in
  let st1 := relax time_of current st0 (Edge "B" 0) in
  let st2 := relax time_of current st1 (Edge "B" 5) in
  distances st1 !! "B"%string = Some (Num 0) /\
  js_lt (js_add (distance current) (time_of (Edge "B" 5)))
        (recorded (distances st1) "B") = false /\
  distances st2 !! "B"%string = Some (Num 5) /\
  predecessors st2 !! "B"%string = Some (Bic "A") /\
  pq st2 = heap_push (Entry (Bic "B") (Num 5)) (pq st1).
Proof.
  cbv zeta. rewrite (relax_eval _ _ _ _ q).
  eval_closed (lt_or_infinity (js_add (distance (Entry (Bic "A") (Num 0)))
                 (time_of (Edge "B" 0))) (recorded {[ "A"%string := Num 0 ]} (to (Edge "B" 0)))).
  cbv beta iota. rewrite relax_eval. cbn [to node distance time_of time js_add].
  match goal with
  | |- context [lt_or_infinity ?a ?b] => eval_closed (lt_or_infinity a b)
  end.
  cbv beta iota. cbn [distances predecessors pq].
  repeat split; by vm_compute.
Qed.

End Runs.

(** ** Runs that do not end *)

Section Diverging.
Context {H : Type} `{!Heap H}.

Lemma falsy_not_below_zero (v : jsval) :
  truthy v = false -> js_gt (Num 0) v = false.
Proof.
  destruct v as [| |z]; simpl; try done.
  intros Hz. apply negb_false_iff, Z.eqb_eq in Hz. by subst.
Qed.

Lemma falsy_improved_by_zero (v : jsval) :
  truthy v = false -> lt_or_infinity (Num 0) v = true.
Proof. unfold lt_or_infinity. by intros ->. Qed.

(** On the cycle of two 0-minute links the queue holds, turn after turn,
    one entry of distance 0 for A or for B, and the recorded distances of
    both stay falsy: each turn pushes the entry of the next one. *)
Lemma zero_cycle_turns (fuel : nat) (target : nodeid) (st : state H) :
  target <> Bic "A" -> target <> Bic "B" ->
  truthy (recorded (distances st) "A") = false ->
  truthy (recorded (distances st) "B") = false ->
  heap_items (pq st) ≡ₚ [Entry (Bic "A") (Num 0)] \/
  heap_items (pq st) ≡ₚ [Entry (Bic "B") (Num 0)] ->
  search graph_zero_cycle fuel time_of target st = None.
Proof.
  intros HtA HtB. revert st.
  induction fuel as [|fuel IH]; intros [d p q]; [done|].
  cbn [distances pq]. intros HA HB [Hq|Hq].
  - destruct (heap_pop_singleton _ _ Hq) as [Hemp (rest & Hpop & Hrest)].
    rewrite (search_turn _ _ _ _ (State d p q) _ _ Hemp Hpop);
      [|by cbn [node]; congruence|by apply falsy_not_below_zero].
    cbn [distances predecessors node distance key].
    eval_closed (edges_from graph_zero_cycle "A"). cbn [foldl].
    rewrite relax_eval. unfold time_of; cbn [to distance time node].
    change (js_add (Num 0) (Num 0)) with (Num 0).
    rewrite (falsy_improved_by_zero _ HB).
    apply IH; cbn [distances pq].
    + unfold recorded. rewrite lookup_insert_ne; [done|]. by vm_compute.
    + unfold recorded. by rewrite lookup_insert_eq.
    + right. by rewrite heap_items_push, Hrest.
  - destruct (heap_pop_singleton _ _ Hq) as [Hemp (rest & Hpop & Hrest)].
    rewrite (search_turn _ _ _ _ (State d p q) _ _ Hemp Hpop);
      [|by cbn [node]; congruence|by apply falsy_not_below_zero].
    cbn [distances predecessors node distance key].
    eval_closed (edges_from graph_zero_cycle "B"). cbn [foldl].
    rewrite relax_eval. unfold time_of; cbn [to distance time node].
    change (js_add (Num 0) (Num 0)) with (Num 0).
    rewrite (falsy_improved_by_zero _ HA).
    apply IH; cbn [distances pq].
    + unfold recorded. by rewrite lookup_insert_eq.
    + unfold recorded. rewrite lookup_insert_ne; [done|]. by vm_compute.
    + left. by rewrite heap_items_push, Hrest.
Qed.

Lemma fastest_zero_cycle_diverges (fuel : nat) :
  dijkstraFastest graph_zero_cycle fuel (Bic "A") (Bic "C") = None.
Proof.
  unfold dijkstraFastest. rewrite zero_cycle_turns; try done.
  left. apply initial_items.
Qed.

End Diverging.

Section BackLink.
Context {H : Type} `{!Heap H}.

(** The relaxation loop on the graph with the back link: five turns, each
    pop forced, the last one popping D.  The link C -> B of 0 minutes is
    relaxed against B's recorded 0 and makes C the predecessor of B, while
    B is the predecessor of C. *)
Lemma back_link_search (fuel : nat) :
  exists rest : H,
    search graph_back_link (5 + fuel) time_of (Bic "D") (initial (Bic "A") (Num 0))
    = Some (State {[ "A"%string := Num 0; "B"%string := Num 1;
                     "C"%string := Num 1; "D"%string := Num 6 ]}
                  {[ "B"%string := Bic "C"; "C"%string := Bic "B";
                     "D"%string := Bic "C" ]}
                  rest).
Proof.
  cbn [Nat.add].
  destruct (heap_pop_singleton _ _ (initial_items (Bic "A") (Num 0)))
    as [Hemp (rest & Hpop & Hrest)].
  rewrite (search_turn _ _ _ _ _ _ _ Hemp Hpop); [|done|done].
  run_relax.
  match goal with |- context [search _ _ _ _ (State ?d ?p ?q)] =>
    assert (Hq1 : heap_items q ≡ₚ [Entry (Bic "B") (Num 0)])
      by (by rewrite !heap_items_push, Hrest);
    destruct (heap_pop_singleton _ _ Hq1) as [Hemp1 (rest1 & Hpop1 & Hrest1)];
    rewrite (search_turn _ _ _ _ (State d p q) _ _ Hemp1 Hpop1); [|done|by vm_compute]
  end.
  run_relax.
  match goal with |- context [search _ _ _ _ (State ?d ?p ?q)] =>
    assert (Hq2 : heap_items q ≡ₚ [Entry (Bic "C") (Num 1)])
      by (by rewrite !heap_items_push, Hrest1);
    destruct (heap_pop_singleton _ _ Hq2) as [Hemp2 (rest2 & Hpop2 & Hrest2)];
    rewrite (search_turn _ _ _ _ (State d p q) _ _ Hemp2 Hpop2); [|done|by vm_compute]
  end.
  run_relax.
  match goal with |- context [search _ _ _ _ (State ?d ?p ?q)] =>
    assert (Hq3 : heap_items q ≡ₚ [Entry (Bic "B") (Num 1); Entry (Bic "D") (Num 6)])
      by (rewrite !heap_items_push, Hrest2; apply Permutation_swap);
    destruct (heap_pop_forced q (Entry (Bic "B") (Num 1)) [Entry (Bic "D") (Num 6)] Hq3
                ltac:(by repeat constructor) ltac:(by repeat constructor))
      as [Hemp3 (rest3 & Hpop3 & Hrest3)];
    rewrite (search_turn _ _ _ _ (State d p q) _ _ Hemp3 Hpop3); [|done|by vm_compute]
  end.
  run_relax.
  match goal with |- context [search _ _ _ _ (State ?d ?p ?q)] =>
    destruct (heap_pop_singleton _ _ Hrest3) as [Hemp4 (rest4 & Hpop4 & Hrest4)];
    rewrite (search_leave _ _ _ _ (State d p q) _ _ Hemp4 Hpop4); [|done]
  end.
  exists rest4. cbn [distances predecessors]. reflexivity.
Qed.

(** From D the predecessors lead to C, then to B, then back to C: the walk
    never meets A. *)
Lemma back_link_walk (fuel : nat) (current : nodeid) (path : list nodeid) :
  current = Bic "B" \/ current = Bic "C" \/ current = Bic "D" ->
  walk_back fuel {[ "B"%string := Bic "C"; "C"%string := Bic "B"; "D"%string := Bic "C" ]}
    (Bic "A") current path = None.
Proof.
  revert current path. induction fuel as [|fuel IH]; intros current path; [done|].
  intros [-> | [-> | ->]]; simpl; apply IH; vm_compute; auto.
Qed.

Lemma fastest_back_link_diverges (fuel : nat) :
  dijkstraFastest graph_back_link fuel (Bic "A") (Bic "D") = None.
Proof.
  destruct (dijkstraFastest graph_back_link fuel (Bic "A") (Bic "D")) as [r|] eqn:E; [|done].
  apply (dijkstraFastest_fuel_mono _ _ (5 + fuel)) in E; [|lia].
  unfold dijkstraFastest in E.
  destruct (back_link_search fuel) as [rest Hrun]. rewrite Hrun in E.
  unfold finish in E. cbn [distances predecessors] in E.
  rewrite decide_True in E by (exists (Num 6); by vm_compute).
  rewrite back_link_walk in E by auto. done.
Qed.

End BackLink.

(** ** Requests that are never answered *)

Lemma zero_cycle_closed (s t : string) (links : list edge) :
  route graph_zero_cycle s links t ->
  s = "A"%string \/ s = "B"%string ->
  t = "A"%string \/ t = "B"%string.
Proof.
  induction 1 as [s|s link links t Hlink _ IH]; [done|].
  intros [-> | ->]; apply IH.
  - revert Hlink. eval_closed (edges_from graph_zero_cycle "A").
    intros ->%list_elem_of_singleton. by right.
  - revert Hlink. eval_closed (edges_from graph_zero_cycle "B").
    intros ->%list_elem_of_singleton. by left.
Qed.

Section Unanswered.
Context {H : Type} `{!Heap H}.

(** C2 (the code departs from it). All link times below are 0 or more.
    On the cycle of two 0-minute links the relaxation loop of
    [dijkstraFastest("A", "C")] is never left, whatever the fuel.  On the
    graph with the back link the relaxation loop of
    [dijkstraFastest("A", "D")] ends after five turns, and the walk along
    the predecessors that follows never reaches A. *)
Theorem fastest_loops_do_not_end (fuel : nat) :
  nonnegative_times graph_zero_cycle /\ nonnegative_times graph_back_link /\
  search graph_zero_cycle fuel time_of (Bic "C") (initial (Bic "A") (Num 0)) = None /\
  dijkstraFastest graph_zero_cycle fuel (Bic "A") (Bic "C") = None /\
  (exists st, search graph_back_link (5 + fuel) time_of (Bic "D") (initial (Bic "A") (Num 0))
              = Some st /\
     walk_back fuel (predecessors st) (Bic "A") (Bic "D") [] = None) /\
  dijkstraFastest graph_back_link fuel (Bic "A") (Bic "D") = None.
Proof.
  split; [unfold nonnegative_times; compute_done|].
  split; [unfold nonnegative_times; compute_done|].
  split; [|split; [apply fastest_zero_cycle_diverges|split]].
  - apply zero_cycle_turns; try done. left. apply initial_items.
  - destruct (back_link_search fuel) as [rest Hrun].
    eexists. split; [exact Hrun|]. cbn [predecessors].
    apply back_link_walk. auto.
  - apply fastest_back_link_diverges.
Qed.

(** C5 (the code departs from it). A, B and C are nodes of the store with
    a charge other than 0, and no route leads from A to C; the fastest
    route endpoint passes the request (A, C) to the search, which never
    returns: no response, neither the 404 nor any other, is produced. *)
Theorem unreachable_end_never_answered (fuel : nat) :
  {[ "A"; "B"; "C" ]}%string ⊆ node_set banks_abc graph_zero_cycle /\
  (forall links : list edge, ~ route graph_zero_cycle "A" links "C") /\
  rejected banks_abc (Request (Bic "A") (Bic "C")) = false /\
  fastestroute banks_abc graph_zero_cycle fuel (Request (Bic "A") (Bic "C")) = None.
Proof.
  split; [compute_done|].
  split; [|split; [by vm_compute|]].
  - intros links Hroute.
    by destruct (zero_cycle_closed _ _ _ Hroute) as [?|?]; [left| |].
  - unfold fastestroute.
    replace (rejected banks_abc (Request (Bic "A") (Bic "C"))) with false by (by vm_compute).
    cbn [fromBank toBank]. by rewrite fastest_zero_cycle_diverges.
Qed.

End Unanswered.

(** ** Recorded nodes are reachable *)

Section Reachable.
Context {H : Type} `{!Heap H}.
Variable banks : gmap string Z.
Variable graph : gmap string (list edge).
Variable s : string.

Lemma route_snoc (a b : string) (links : list edge) (link : edge) :
  route graph a links b ->
  link ∈ edges_from graph b ->
  route graph a (links ++ [link]) (to link).
Proof.
  induction 1 as [a|a l ls b Hl _ IH]; intros Hlink; simpl.
  - apply route_step; [done|apply route_stay].
  - apply route_step; [done|by apply IH].
Qed.








End Reachable.

(** ** A returned path follows links *)

Section Linked.
Context {H : Type} `{!Heap H}.
Variable banks : gmap string Z.
Variable graph : gmap string (list edge).
Variable s : string.









End Linked.

(** ** The searches on positive weights *)

(** A search from [s] with start distance [z0], in which the weight added
    for a link is a number of 0 or more and no distance written by a
    relaxation can be 0 ([z0 + w] is above 0 for every link): the times of
    the fastest search when all are 1 or more ([z0] is 0), the charges of
    the cheapest search when the start's is above 0.  The only distance 0
    ever recorded is then the start's own. *)
Section Positive.
Context {H : Type} `{!Heap H}.
Variable graph : gmap string (list edge).
Variable s : string.
Variable weight : edge -> jsval.
Variable z0 : Z.
Hypothesis weight_sound :
  forall k e, e ∈ edges_from graph k ->
    exists w, weight e = Num w /\ 0 <= w /\ 0 < z0 + w.

(** The weight of a link as an integer. *)
Definition wz (e : edge) : Z :=
  match weight e with Num w => w | _ => 0 end.

(** The number recorded for a node. *)
Definition dist_of (d : gmap string jsval) (k : string) : option Z :=
  match d !! k with Some (Num z) => Some z | _ => None end.

(** The distance that stands for a node in the argument: the recorded
    one, except for the start node, whose recorded 0 may have been
    replaced. *)
Definition eff (d : gmap string jsval) (k : string) : option Z :=
  if decide (k = s) then Some z0 else dist_of d k.

(** The queue still holds the entry of [k] with its distance. *)
Definition pending (st : state H) (k : string) : Prop :=
  exists z, eff (distances st) k = Some z /\ Entry (Bic k) (Num z) ∈ heap_items (pq st).

(** Every link of [k] was relaxed from the distance of [k]: its end is the
    start, or has a recorded distance that the link does not improve. *)
Definition closed (d : gmap string jsval) (k : string) : Prop :=
  forall e, e ∈ edges_from graph k ->
    to e = s \/
    exists zk zt, eff d k = Some zk /\ dist_of d (to e) = Some zt /\ zt <= zk + wz e.

Definition settled (st : state H) (k : string) : Prop :=
  pending st k \/ closed (distances st) k.

(** What holds of the three locals throughout the loop: the start is
    recorded; recorded distances are numbers from [z0] upwards, above 0
    except the start's; a queue entry is not below the distance of its
    node; the predecessor of a recorded node is nearer to the start, or as
    near and written earlier ([rank]). *)
Record inv_core (st : state H) : Prop := {
  core_start : is_Some (distances st !! s);
  core_num : forall k v, distances st !! k = Some v ->
    exists z, v = Num z /\ z0 <= z /\ (k <> s -> 0 < z);
  core_queue : forall e, e ∈ heap_items (pq st) ->
    exists k z zk, e = Entry (Bic k) (Num z) /\ eff (distances st) k = Some zk /\ zk <= z;
  core_pred : exists (rank : string -> nat) (bound : nat),
    (forall k, (rank k < bound)%nat) /\
    forall k, k <> s -> is_Some (distances st !! k) ->
      exists x zx zk, predecessors st !! k = Some (Bic x) /\
        eff (distances st) x = Some zx /\ dist_of (distances st) k = Some zk /\
        (zx < zk \/ (zx = zk /\ (rank x < rank k)%nat))
}.

(** The links of the node being relaxed that were gone through already. *)
Definition covered (d : gmap string jsval) (z : Z) (es : list edge) : Prop :=
  forall e, e ∈ es ->
    to e = s \/ exists zt, dist_of d (to e) = Some zt /\ zt <= z + wz e.

Lemma wz_weight (k : string) (e : edge) :
  e ∈ edges_from graph k -> weight e = Num (wz e) /\ 0 <= wz e /\ 0 < z0 + wz e.
Proof.
  intros He. destruct (weight_sound k e He) as (w & Hw & Hnn & Hpos).
  unfold wz. by rewrite Hw.
Qed.

Lemma dist_of_insert (d : gmap string jsval) (u k : string) (z : Z) :
  dist_of (<[u := Num z]> d) k = if decide (u = k) then Some z else dist_of d k.
Proof.
  unfold dist_of. rewrite lookup_insert. by destruct (decide (u = k)).
Qed.

Lemma dist_of_Some (d : gmap string jsval) (k : string) (z : Z) :
  dist_of d k = Some z <-> d !! k = Some (Num z).
Proof.
  unfold dist_of. destruct (d !! k) as [[| |z']|]; split; intros; simplify_eq; done.
Qed.

Lemma eff_start (d : gmap string jsval) : eff d s = Some z0.
Proof. unfold eff. by rewrite decide_True. Qed.

Lemma eff_other (d : gmap string jsval) (k : string) :
  k <> s -> eff d k = dist_of d k.
Proof. intros Hk. unfold eff. by rewrite decide_False. Qed.

Lemma eff_lower (st : state H) (k : string) (zk : Z) :
  inv_core st -> eff (distances st) k = Some zk -> z0 <= zk.
Proof.
  intros Hcore. unfold eff. destruct (decide (k = s)); [by intros [= <-]|].
  intros Hk%dist_of_Some. destruct (core_num _ Hcore _ _ Hk) as (z & [= <-] & ? & _). done.
Qed.

(** The two outcomes of relaxing a link with a numeric candidate. *)
Lemma relax_cases (k : string) (z : Z) (d : gmap string jsval)
    (p : gmap string nodeid) (q : H) (e : edge) :
  weight e = Num (wz e) ->
  (relax weight (Entry (Bic k) (Num z)) (State d p q) e = State d p q /\
   exists zt, d !! to e = Some (Num zt) /\ zt <> 0 /\ zt <= z + wz e) \/
  (relax weight (Entry (Bic k) (Num z)) (State d p q) e
   = State (<[to e := Num (z + wz e)]> d) (<[to e := Bic k]> p)
           (heap_push (Entry (Bic (to e)) (Num (z + wz e))) q) /\
   forall zt, d !! to e = Some (Num zt) -> zt = 0 \/ z + wz e < zt).
Proof.
  intros Hw. rewrite relax_eval. cbn [distance node]. rewrite Hw. cbn [js_add].
  unfold lt_or_infinity, recorded.
  destruct (d !! to e) as [[| |zt]|] eqn:Hd; simpl; try (right; split; [done|]; intros; simplify_eq).
  destruct (zt =? 0) eqn:Hz; simpl.
  - apply Z.eqb_eq in Hz. right. split; [done|]. intros zt' [= <-]. by left.
  - apply Z.eqb_neq in Hz. destruct (z + wz e <? zt) eqn:Hlt.
    + apply Z.ltb_lt in Hlt. right. split; [done|]. intros zt' [= <-]. by right.
    + apply Z.ltb_ge in Hlt. left. split; [done|]. by exists zt.
Qed.


Lemma relax_step (k : string) (z zk : Z) (st : state H) (e : edge) (es : list edge) :
  inv_core st ->
  eff (distances st) k = Some zk -> zk <= z ->
  e ∈ edges_from graph k ->
  covered (distances st) z es ->
  inv_core (relax weight (Entry (Bic k) (Num z)) st e) /\
  eff (distances (relax weight (Entry (Bic k) (Num z)) st e)) k = Some zk /\
  covered (distances (relax weight (Entry (Bic k) (Num z)) st e)) z (es ++ [e]) /\
  (forall x, settled st x -> settled (relax weight (Entry (Bic k) (Num z)) st e) x) /\
  (forall x, is_Some (distances (relax weight (Entry (Bic k) (Num z)) st e) !! x) ->
     is_Some (distances st !! x) \/ pending (relax weight (Entry (Bic k) (Num z)) st e) x).
Proof.
  destruct st as [d p q]. cbn [distances predecessors pq].
  intros Hcore Hk Hzk He Hcov.
  destruct (wz_weight k e He) as (Hw & Hnn & Hpos).
  pose proof (eff_lower _ _ _ Hcore Hk) as Hz0k. cbn [distances] in Hz0k.
  destruct (relax_cases k z d p q e Hw) as [[-> (zt & Hzt & Hnz & Hle)] | [-> Hupd]];
    cbn [distances predecessors pq].
  - (* nothing written *)
    split; [done|]. split; [done|]. split; [|split; [done|by left]].
    intros e' [He' | ->%list_elem_of_singleton]%elem_of_app; [by apply Hcov|].
    right. exists zt. by rewrite dist_of_Some.
  - (* the target is written *)
    set (u := to e) in *. set (n := z + wz e) in *.
    assert (Hdec : u <> s -> forall zt, dist_of d u = Some zt -> n < zt).
    { intros Hus zt Hzt%dist_of_Some.
      destruct (core_num _ Hcore _ _ Hzt) as (z' & [= <-] & _ & Hp).
      destruct (Hupd _ Hzt) as [-> | ?]; [|done]. specialize (Hp Hus). lia. }
    assert (Hku : k = u -> u = s).
    { intros <-. destruct (decide (k = s)) as [|Hks]; [done|].
      rewrite (eff_other _ _ Hks) in Hk. specialize (Hdec Hks _ Hk). lia. }
    assert (Heff : forall x, x <> u \/ x = s ->
              eff (<[u := Num n]> d) x = eff d x).
    { intros x Hx. unfold eff. destruct (decide (x = s)); [done|].
      rewrite dist_of_insert. destruct (decide (u = x)) as [<-|]; [|done]. by destruct Hx. }
    assert (Heffu : u <> s -> eff (<[u := Num n]> d) u = Some n).
    { intros Hus. rewrite (eff_other _ _ Hus), dist_of_insert. by rewrite decide_True. }
    assert (Hkeff : eff (<[u := Num n]> d) k = Some zk).
    { rewrite Heff; [done|]. destruct (decide (k = u)) as [Heq|]; [|by left].
      right. rewrite Heq. by apply Hku. }
    split; [|split; [done|split; [|split]]].
    + split; cbn [distances predecessors pq].
      * rewrite lookup_insert. destruct (decide (u = s)); [by eexists|].
        apply (core_start _ Hcore).
      * intros x v. rewrite lookup_insert. destruct (decide (u = x)) as [<-|].
        -- intros [= <-]. exists n. split; [done|]. subst n. split; lia.
        -- apply (core_num _ Hcore).
      * intros e' He'. rewrite heap_items_push in He'.
        apply elem_of_cons in He' as [->|He'].
        -- exists u, n. destruct (decide (u = s)) as [Hus|Hus].
           ++ exists z0. split; [done|]. split; [|subst n; lia].
              rewrite Heff by (by right). rewrite Hus. apply eff_start.
           ++ exists n. by rewrite Heffu.
        -- destruct (core_queue _ Hcore _ He') as (x & z' & zx & -> & Hx & Hle).
           cbn [distances] in Hx.
           exists x, z'. destruct (decide (x = u)) as [->|Hxu].
           ++ destruct (decide (u = s)) as [Hus|Hus].
              ** exists zx. rewrite Heff by (by right). done.
              ** exists n. rewrite (Heffu Hus). split; [done|]. split; [done|].
                 rewrite (eff_other _ _ Hus) in Hx. specialize (Hdec Hus _ Hx). lia.
           ++ exists zx. rewrite Heff by (by left). done.
      * destruct (core_pred _ Hcore) as (rank & bound & Hbound & Hpred).
        cbn [distances predecessors] in Hpred.
        destruct (decide (u = s)) as [Hus|Hus].
        { (* the start is written: the distances that count are unchanged *)
          exists rank, bound. split; [done|]. intros x Hxs Hx.
          rewrite lookup_insert_ne in Hx by congruence.
          rewrite lookup_insert_ne by congruence.
          destruct (Hpred _ Hxs Hx) as (y & zy & zx & Hp & Hy & Hdx & Hlt).
          exists y, zy, zx. split; [done|].
          rewrite dist_of_insert, decide_False by congruence.
          rewrite Heff; [done|].
          destruct (decide (y = u)) as [->|]; [by right|by left]. }
        exists (fun y => if decide (y = u) then bound else rank y), (S bound). split.
        { intros y. destruct (decide (y = u)); [lia|]. specialize (Hbound y). lia. }
        intros x Hxs Hx. rewrite lookup_insert in Hx. rewrite lookup_insert.
        destruct (decide (u = x)) as [<-|Hux].
        -- exists k, zk, n. split; [done|]. split; [done|].
           rewrite dist_of_insert, decide_True by done. split; [done|].
           rewrite (decide_True (P := u = u)) by done.
           destruct (decide (k = u)) as [Heq|]; [by destruct Hus; apply Hku|].
           specialize (Hbound k). subst n. lia.
        -- destruct (Hpred _ Hxs Hx) as (y & zy & zx & Hp & Hy & Hdx & Hlt).
           exists y. rewrite (decide_False (P := x = u)) by done.
           destruct (decide (y = u)) as [->|Hyu].
           ++ exists n, zx. rewrite (Heffu Hus).
              rewrite dist_of_insert, decide_False by done.
              split; [done|]. split; [done|]. split; [done|].
              rewrite (eff_other _ _ Hus) in Hy. specialize (Hdec Hus _ Hy). lia.
           ++ exists zy, zx. rewrite Heff by (by left).
              rewrite dist_of_insert, decide_False by done. done.
    + intros e' [He' | ->%list_elem_of_singleton]%elem_of_app.
      * destruct (Hcov _ He') as [?|(zt & Hzt & Hle)]; [by left|].
        destruct (decide (to e' = s)) as [|Hes]; [by left|]. right.
        rewrite dist_of_insert. destruct (decide (u = to e')) as [Heq|]; [|by exists zt].
        exists n. split; [done|]. rewrite <- Heq in Hzt, Hes.
        specialize (Hdec Hes _ Hzt). lia.
      * destruct (decide (u = s)) as [|Hus]; [by left|]. right. exists n.
        fold u. rewrite dist_of_insert, decide_True by done. split; [done|]. subst n. lia.
    + intros x [(zx & Hx & Hin)|Hcl]; cbn [distances pq] in *.
      * destruct (decide (x = u /\ u <> s)) as [[-> Hus]|Hno].
        -- left. exists n. cbn [distances pq]. rewrite (Heffu Hus). split; [done|].
           rewrite heap_items_push. apply list_elem_of_here.
        -- left. exists zx. cbn [distances pq]. rewrite Heff.
           ++ split; [done|]. rewrite heap_items_push. by apply list_elem_of_further.
           ++ destruct (decide (x = u)) as [->|]; [|by left]. right.
              destruct (decide (u = s)); [done|]. by destruct Hno.
      * destruct (decide (x = u /\ u <> s)) as [[-> Hus]|Hno].
        -- left. exists n. cbn [distances pq]. rewrite (Heffu Hus). split; [done|].
           rewrite heap_items_push. apply list_elem_of_here.
        -- right. intros e' He'. destruct (Hcl _ He') as [?|(zx & zt & Hx & Hzt & Hle)]; [by left|].
           destruct (decide (to e' = s)) as [|Hes]; [by left|]. right.
           cbn [distances]. exists zx. rewrite Heff.
           2:{ destruct (decide (x = u)) as [->|]; [|by left]. right.
               destruct (decide (u = s)); [done|]. by destruct Hno. }
           rewrite dist_of_insert. destruct (decide (u = to e')) as [Heq|]; [|by exists zt].
           exists n. split; [done|]. split; [done|]. rewrite <- Heq in Hzt, Hes.
           specialize (Hdec Hes _ Hzt). lia.
    + intros x Hx. rewrite lookup_insert in Hx.
      destruct (decide (u = x)) as [<-|]; [|by left].
      destruct (decide (u = s)) as [->|Hus]; [left; apply (core_start _ Hcore)|].
      right. exists n. cbn [distances pq]. rewrite (Heffu Hus). split; [done|].
      rewrite heap_items_push. apply list_elem_of_here.
Qed.


Lemma relax_all (k : string) (z zk : Z) (l : list edge) (st : state H) (es : list edge) :
  inv_core st ->
  eff (distances st) k = Some zk -> zk <= z ->
  (forall e, e ∈ l -> e ∈ edges_from graph k) ->
  covered (distances st) z es ->
  inv_core (foldl (relax weight (Entry (Bic k) (Num z))) st l) /\
  eff (distances (foldl (relax weight (Entry (Bic k) (Num z))) st l)) k = Some zk /\
  covered (distances (foldl (relax weight (Entry (Bic k) (Num z))) st l)) z (es ++ l) /\
  (forall x, settled st x -> settled (foldl (relax weight (Entry (Bic k) (Num z))) st l) x) /\
  (forall x, is_Some (distances (foldl (relax weight (Entry (Bic k) (Num z))) st l) !! x) ->
     is_Some (distances st !! x) \/
     settled (foldl (relax weight (Entry (Bic k) (Num z))) st l) x).
Proof.
  revert st es. induction l as [|e l IH]; intros st es Hcore Hk Hzk Hl Hcov.
  - simpl. rewrite app_nil_r. do 4 (split; [done|]). intros x Hx. by left.
  - simpl.
    destruct (relax_step k z zk st e es Hcore Hk Hzk) as (Hcore1 & Hk1 & Hcov1 & Hset1 & Hnew1);
      [apply Hl, list_elem_of_here | done |].
    destruct (IH _ (es ++ [e]) Hcore1 Hk1 Hzk)
      as (Hcore2 & Hk2 & Hcov2 & Hset2 & Hnew2);
      [intros e' He'; by apply Hl, list_elem_of_further | done |].
    split; [done|]. split; [done|]. split; [by rewrite <- app_assoc in Hcov2|].
    split; [by auto|].
    intros x Hx. destruct (Hnew2 _ Hx) as [Hx1|?]; [|by right].
    destruct (Hnew1 _ Hx1) as [?|Hp]; [by left|].
    right. apply Hset2. by left.
Qed.

(** The invariant of the relaxation loop: every recorded node still has
    its entry in the queue, or all its links were relaxed from its
    distance. *)
Definition inv (st : state H) : Prop :=
  inv_core st /\ forall x, is_Some (distances st !! x) -> settled st x.

Lemma inv_initial : inv (initial (Bic s) (Num z0)).
Proof.
  split; [split|]; unfold initial; cbn [distances predecessors pq key].
  - rewrite lookup_singleton_eq. by eexists.
  - intros k v [<- <-]%lookup_singleton_Some. exists z0. split; [done|]. split; [lia|done].
  - intros e He.
    pose proof (initial_items (H:=H) (Bic s) (Num z0)) as Hitems.
    unfold initial in Hitems; cbn [pq] in Hitems. rewrite Hitems in He.
    apply list_elem_of_singleton in He as ->. exists s, z0, z0.
    split; [done|]. split; [apply eff_start|lia].
  - exists (fun _ => 0%nat), 1%nat. split; [intros; lia|].
    intros k Hks [v [<- _]%lookup_singleton_Some]. done.
  - intros x [v [<- _]%lookup_singleton_Some]. left. exists z0.
    cbn [distances pq]. split; [apply eff_start|].
    pose proof (initial_items (H:=H) (Bic s) (Num z0)) as Hitems.
    unfold initial in Hitems; cbn [pq] in Hitems. rewrite Hitems.
    apply list_elem_of_here.
Qed.

Lemma inv_numeric (st : state H) : inv_core st -> Forall numeric (heap_items (pq st)).
Proof.
  intros Hcore. apply Forall_forall. intros e He.
  by destruct (core_queue _ Hcore _ He) as (k & z & zk & -> & _).
Qed.

(** What a pop leaves: the invariant, except that the node popped may
    have lost its entry. *)
Lemma inv_pop (st : state H) (current : entry) (rest : H) :
  inv st -> heap_pop (pq st) = Some (current, rest) ->
  exists k z zk, current = Entry (Bic k) (Num z) /\
    eff (distances st) k = Some zk /\ zk <= z /\
    inv_core (State (distances st) (predecessors st) rest) /\
    forall x, is_Some (distances st !! x) ->
      (x = k /\ z = zk) \/ settled (State (distances st) (predecessors st) rest) x.
Proof.
  intros [Hcore Hset] Hpop. pose proof (heap_pop_some _ _ _ Hpop) as Hperm.
  destruct (core_queue _ Hcore current) as (k & z & zk & -> & Hk & Hzk).
  { rewrite Hperm. apply list_elem_of_here. }
  exists k, z, zk. split; [done|]. split; [done|]. split; [done|]. split.
  - split; cbn [distances predecessors pq]; try apply Hcore.
    intros e He. apply (core_queue _ Hcore). rewrite Hperm. by apply list_elem_of_further.
  - intros x Hx. destruct (Hset _ Hx) as [(zx & Hzx & Hin)|Hcl]; [|by right; right].
    rewrite Hperm in Hin. apply elem_of_cons in Hin as [[= -> ->]|Hin].
    + left. split; [done|]. congruence.
    + right. left. by exists zx.
Qed.

Lemma stale_differs (st : state H) (k : string) (z zk : Z) :
  inv_core st -> eff (distances st) k = Some zk ->
  js_gt (Num z) (recorded (distances st) k) = true -> z <> zk.
Proof.
  intros Hcore Hk. unfold js_gt, recorded.
  destruct (distances st !! k) as [v|] eqn:Hd; [|done]. simpl.
  destruct (core_num _ Hcore _ _ Hd) as (zr & -> & Hz0 & _). simpl.
  intros Hlt%Z.ltb_lt. unfold eff in Hk. destruct (decide (k = s)).
  - injection Hk as <-. lia.
  - apply dist_of_Some in Hk. rewrite Hd in Hk. injection Hk as ->. lia.
Qed.

(** One turn of the loop keeps the invariant. *)
Lemma inv_turn_stale (st : state H) (current : entry) (rest : H) :
  inv st -> heap_pop (pq st) = Some (current, rest) ->
  js_gt (distance current) (recorded (distances st) (key (node current))) = true ->
  inv (State (distances st) (predecessors st) rest).
Proof.
  intros Hinv Hpop Hstale.
  destruct (inv_pop _ _ _ Hinv Hpop) as (k & z & zk & -> & Hk & Hzk & Hcore & Hset).
  split; [done|]. cbn [distances]. intros x Hx.
  destruct (Hset _ Hx) as [[-> ->]|?]; [|done].
  by destruct (stale_differs st k zk zk (proj1 Hinv) Hk Hstale).
Qed.

Lemma inv_turn_relax (st : state H) (current : entry) (rest : H) :
  inv st -> heap_pop (pq st) = Some (current, rest) ->
  inv (foldl (relax weight current) (State (distances st) (predecessors st) rest)
         (edges_from graph (key (node current)))).
Proof.
  intros Hinv Hpop.
  destruct (inv_pop _ _ _ Hinv Hpop) as (k & z & zk & -> & Hk & Hzk & Hcore & Hset).
  cbn [node key].
  destruct (relax_all k z zk (edges_from graph k)
              (State (distances st) (predecessors st) rest) [] Hcore Hk Hzk)
    as (Hcore' & Hk' & Hcov' & Hset' & Hnew'); [done|by intros e He%elem_of_nil|].
  split; [done|]. intros x Hx.
  destruct (Hnew' _ Hx) as [Hold|?]; [|done]. cbn [distances] in Hold.
  destruct (Hset _ Hold) as [[-> ->]|?]; [|by apply Hset'].
  right. intros e He. destruct (Hcov' e He) as [?|(zt & Hzt & Hle)]; [by left|].
  right. by exists zk, zt.
Qed.


(** Total weight of a route: the weights of its links. *)
Definition route_weight (links : list edge) : Z :=
  foldr (fun e acc => wz e + acc) 0 links.

(** The state in which the loop is left towards [t]: every recorded node
    has all its links relaxed, or its distance is at least [m], a bound
    that the distance recorded for [t] does not exceed. *)
Definition left_for (t : string) (st : state H) : Prop :=
  inv_core st /\
  ((forall x, is_Some (distances st !! x) -> closed (distances st) x) \/
   exists m zt, dist_of (distances st) t = Some zt /\ zt <= m /\
     forall x, is_Some (distances st !! x) ->
       closed (distances st) x \/ exists zx, eff (distances st) x = Some zx /\ m <= zx).

Lemma before_false_le (k k' : string) (z z' : Z) :
  before (Entry (Bic k') (Num z')) (Entry (Bic k) (Num z)) = false -> z <= z'.
Proof. unfold before, cmp; simpl. intros Hlt%Z.ltb_ge. lia. Qed.

Lemma search_left_for (fuel : nat) (t : string) (st st' : state H) :
  t <> s -> inv st ->
  search graph fuel weight (Bic t) st = Some st' -> left_for t st'.
Proof.
  intros Hts. revert st. induction fuel as [|fuel IH]; intros st Hinv; [done|].
  simpl.
  assert (Hdrained : heap_items (pq st) = [] -> left_for t st).
  { intros Hnil. destruct Hinv as [Hcore Hset]. split; [done|]. left.
    intros x Hx. destruct (Hset _ Hx) as [(zx & _ & Hin)|?]; [|done].
    rewrite Hnil in Hin. by apply elem_of_nil in Hin. }
  destruct (heap_empty (pq st)) eqn:Hemp.
  { intros [= <-]. by apply Hdrained, heap_empty_items. }
  destruct (heap_pop (pq st)) as [[current rest]|] eqn:Hpop.
  2:{ intros [= <-]. by apply Hdrained, heap_pop_none. }
  destruct (decide (node current = Bic t)) as [Hnode|Hnode].
  - intros [= <-].
    destruct (inv_pop _ _ _ Hinv Hpop) as (k & z & zk & -> & Hk & Hzk & Hcore & Hset).
    cbn [node] in Hnode. injection Hnode as ->.
    rewrite (eff_other _ _ Hts) in Hk.
    split; [done|]. right. exists z, zk. cbn [distances].
    split; [done|]. split; [done|].
    intros x Hx. destruct (proj2 Hinv _ Hx) as [(zx & Hzx & Hin)|?]; [|by left].
    right. exists zx. split; [done|].
    rewrite (heap_pop_some _ _ _ Hpop) in Hin.
    apply elem_of_cons in Hin as [[= -> ->]|Hin]; [lia|].
    pose proof (heap_pop_min _ _ _ Hpop (inv_numeric _ (proj1 Hinv))) as Hmin.
    rewrite Forall_forall in Hmin. by apply (before_false_le t x), Hmin.
  - destruct (js_gt _ _) eqn:Hstale.
    + apply IH. by apply (inv_turn_stale st current).
    + apply IH. by apply inv_turn_relax.
Qed.

Lemma route_weight_nonneg (x t : string) (links : list edge) :
  route graph x links t -> 0 <= route_weight links.
Proof.
  induction 1 as [x|x e links t He _ IH]; simpl; [done|].
  destruct (wz_weight _ _ He). lia.
Qed.

(** Along a route the recorded distances stay below the weight of the
    route walked so far, until a node is met whose distance is at least
    the bound. *)
Lemma left_for_chain (st : state H) (m : option Z) (x t : string) (links : list edge) (zx : Z) :
  inv_core st ->
  (forall y, is_Some (distances st !! y) ->
     closed (distances st) y \/
     exists m' zy, m = Some m' /\ eff (distances st) y = Some zy /\ m' <= zy) ->
  route graph x links t ->
  eff (distances st) x = Some zx ->
  (exists zt, eff (distances st) t = Some zt /\ zt <= zx + route_weight links) \/
  (exists m', m = Some m' /\ m' <= zx + route_weight links).
Proof.
  intros Hcore Hall Hroute. revert zx.
  induction Hroute as [x|x e links t He Hroute IH]; intros zx Hx; simpl.
  - left. exists zx. split; [done|lia].
  - pose proof (route_weight_nonneg _ _ _ Hroute) as Hnn.
    destruct (wz_weight _ _ He) as (_ & Hpos & _).
    assert (Hrec : is_Some (distances st !! x)).
    { unfold eff in Hx. destruct (decide (x = s)) as [->|]; [apply (core_start _ Hcore)|].
      apply dist_of_Some in Hx. by eexists. }
    destruct (Hall _ Hrec) as [Hcl|(m' & zy & -> & Hy & Hle)].
    2:{ right. exists m'. split; [done|]. rewrite Hx in Hy. injection Hy as <-. lia. }
    destruct (Hcl _ He) as [Hs|(zx' & zt & Hx' & Hzt & Hle)].
    + rewrite Hs in IH. destruct (IH z0 (eff_start _)) as [(zt & Ht & Hle)|(m' & -> & Hle)].
      * left. exists zt. split; [done|].
        pose proof (eff_lower _ _ _ Hcore Hx). lia.
      * right. exists m'. split; [done|].
        pose proof (eff_lower _ _ _ Hcore Hx). lia.
    + rewrite Hx in Hx'. injection Hx' as <-.
      destruct (decide (to e = s)) as [Hs|Hns].
      * rewrite Hs in IH. destruct (IH z0 (eff_start _)) as [(zt' & Ht & Hle')|(m' & -> & Hle')].
        -- left. exists zt'. split; [done|].
           pose proof (eff_lower _ _ _ Hcore Hx). lia.
        -- right. exists m'. split; [done|].
           pose proof (eff_lower _ _ _ Hcore Hx). lia.
      * destruct (IH zt) as [(zt' & Ht & Hle')|(m' & -> & Hle')].
        -- by rewrite (eff_other _ _ Hns).
        -- left. exists zt'. split; [done|]. lia.
        -- right. exists m'. split; [done|]. lia.
Qed.

(** The distance recorded for the end, when the loop is left, is at most
    the weight of any route to it. *)
Lemma left_for_least (t : string) (st : state H) (links : list edge) :
  t <> s -> left_for t st -> route graph s links t ->
  exists zt, distances st !! t = Some (Num zt) /\ zt <= z0 + route_weight links.
Proof.
  intros Hts [Hcore [Hall|(m & zt & Ht & Hzt & Hall)]] Hroute.
  - destruct (left_for_chain st None s t links z0 Hcore) as [(zt & Ht & Hle)|(m' & [=] & _)];
      [by intros y Hy; left; apply Hall | done | apply eff_start |].
    rewrite (eff_other _ _ Hts) in Ht. exists zt. by rewrite <- dist_of_Some.
  - destruct (left_for_chain st (Some m) s t links z0 Hcore) as [(zt' & Ht' & Hle)|(m' & [= <-] & Hle)];
      [ | done | apply eff_start | | ].
    + intros y Hy. destruct (Hall _ Hy) as [?|(zy & ? & ?)]; [by left|].
      right. by exists m, zy.
    + rewrite (eff_other _ _ Hts) in Ht'. exists zt'. by rewrite <- dist_of_Some.
    + exists zt. rewrite <- dist_of_Some. split; [done|lia].
Qed.


(** The walk along the predecessors ends: each step leads to a node of
    smaller distance, or to the start. *)
Lemma walk_back_ends (st : state H) (k : string) (acc : list nodeid) :
  inv_core st -> is_Some (distances st !! k) ->
  exists fuel path, walk_back fuel (predecessors st) (Bic s) (Bic k) acc = Some path.
Proof.
  intros Hcore. destruct (core_pred _ Hcore) as (rank & bound & _ & Hpred).
  assert (Hgen : forall (n m : nat) k acc zk, k <> s ->
            dist_of (distances st) k = Some zk ->
            Z.to_nat (zk - z0) = n -> rank k = m ->
            exists fuel path, walk_back fuel (predecessors st) (Bic s) (Bic k) acc = Some path).
  { clear k acc. induction n as [n IHn] using lt_wf_ind.
    induction m as [m IHm] using lt_wf_ind. intros k acc zk Hks Hk Hn Hm.
    assert (Hrec : is_Some (distances st !! k)) by (apply dist_of_Some in Hk; by eexists).
    destruct (Hpred _ Hks Hrec) as (x & zx & zk' & Hp & Hx & Hk' & Hlt).
    rewrite Hk in Hk'. injection Hk' as <-.
    pose proof (eff_lower _ _ _ Hcore Hx) as Hlow.
    destruct (decide (x = s)) as [->|Hxs].
    - exists 2%nat. eexists. simpl.
      rewrite decide_False by congruence.
      unfold predecessor; cbn [key]. rewrite Hp. simpl. by rewrite decide_True.
    - rewrite (eff_other _ _ Hxs) in Hx.
      assert (exists fuel path,
                walk_back fuel (predecessors st) (Bic s) (Bic x) (acc ++ [Bic k]) = Some path)
        as (fuel & path & Hwalk).
      { destruct Hlt as [Hlt|[-> Hlt]].
        - apply (IHn (Z.to_nat (zx - z0)) ltac:(lia) (rank x) x _ zx); done.
        - apply (IHm (rank x) ltac:(lia) x _ zk); done. }
      exists (S fuel), path. simpl. rewrite decide_False by congruence.
      unfold predecessor; cbn [key]. by rewrite Hp. }
  intros Hrec. destruct (decide (k = s)) as [->|Hks].
  - exists 1%nat, acc. simpl. by rewrite decide_True.
  - destruct Hrec as [v Hv]. destruct (core_num _ Hcore _ _ Hv) as (zk & -> & _).
    apply (Hgen (Z.to_nat (zk - z0)) (rank k) k acc zk); try done. by apply dist_of_Some.
Qed.

(** *** The path returned and its weight *)

(** The distance recorded for a node other than the start is not below
    the distance of its predecessor plus the weight of a link from the
    predecessor to the node. *)
Definition weighed (st : state H) : Prop :=
  forall k zk, k <> s -> dist_of (distances st) k = Some zk ->
    exists x e zx, predecessors st !! k = Some (Bic x) /\
      e ∈ edges_from graph x /\ to e = k /\
      eff (distances st) x = Some zx /\ zx + wz e <= zk.

Lemma weighed_initial : weighed (initial (Bic s) (Num z0)).
Proof.
  unfold initial. intros k zk Hks Hk%dist_of_Some. cbn [distances key] in Hk.
  by apply lookup_singleton_Some in Hk as [<- _].
Qed.

Lemma weighed_relax (k0 : string) (z zk0 : Z) (st : state H) (e0 : edge) :
  inv_core st -> weighed st ->
  eff (distances st) k0 = Some zk0 -> zk0 <= z ->
  e0 ∈ edges_from graph k0 ->
  weighed (relax weight (Entry (Bic k0) (Num z)) st e0).
Proof.
  destruct st as [d p q]. unfold weighed. cbn [distances predecessors pq].
  intros Hcore Hst Hk0 Hzk0 He0.
  destruct (wz_weight k0 e0 He0) as (Hw & Hnn & Hpos).
  destruct (relax_cases k0 z d p q e0 Hw) as [[-> _] | [-> Hupd]];
    cbn [distances predecessors pq]; [done|].
  set (u := to e0) in *. set (n := z + wz e0) in *.
  assert (Hdec : u <> s -> forall zt, dist_of d u = Some zt -> n < zt).
  { intros Hus zt Hzt%dist_of_Some.
    destruct (core_num _ Hcore _ _ Hzt) as (z' & [= <-] & _ & Hp).
    destruct (Hupd _ Hzt) as [-> | ?]; [|done]. specialize (Hp Hus). lia. }
  assert (Heff : forall x zx, eff d x = Some zx ->
            exists zx', eff (<[u := Num n]> d) x = Some zx' /\ zx' <= zx).
  { intros x zx Hx. unfold eff in *. destruct (decide (x = s)); [by exists zx|].
    rewrite dist_of_insert. destruct (decide (u = x)) as [<-|]; [|by exists zx].
    exists n. split; [done|]. assert (Hus : u <> s) by done.
    specialize (Hdec Hus _ Hx). lia. }
  intros k zk Hks. rewrite dist_of_insert, lookup_insert.
  destruct (decide (u = k)) as [<-|Hne].
  - intros [= <-]. destruct (Heff _ _ Hk0) as (zx' & Hx' & Hle).
    exists k0, e0, zx'. split; [done|]. split; [done|]. split; [done|].
    split; [done|]. subst n. lia.
  - intros Hk. destruct (Hst k zk Hks Hk) as (x & e & zx & Hx & Hin & Hto & Hex & Hsum).
    destruct (Heff _ _ Hex) as (zx' & Hx' & Hle).
    exists x, e, zx'. split; [done|]. split; [done|]. split; [done|].
    split; [done|]. lia.
Qed.

Lemma weighed_relax_all (k0 : string) (z zk0 : Z) (l : list edge) (st : state H) :
  inv_core st -> weighed st ->
  eff (distances st) k0 = Some zk0 -> zk0 <= z ->
  (forall e, e ∈ l -> e ∈ edges_from graph k0) ->
  weighed (foldl (relax weight (Entry (Bic k0) (Num z))) st l).
Proof.
  revert st. induction l as [|e l IH]; intros st Hcore Hst Hk0 Hzk0 Hl; [done|].
  simpl.
  assert (He : e ∈ edges_from graph k0) by apply Hl, list_elem_of_here.
  destruct (relax_step k0 z zk0 st e [] Hcore Hk0 Hzk0 He) as (Hcore1 & Hk1 & _);
    [by intros e' He'%elem_of_nil|].
  apply IH; try done.
  - by apply (weighed_relax k0 z zk0).
  - intros e' He'. by apply Hl, list_elem_of_further.
Qed.

Lemma weighed_search (fuel : nat) (target : nodeid) (st st' : state H) :
  inv st -> weighed st ->
  search graph fuel weight target st = Some st' -> weighed st'.
Proof.
  revert st. induction fuel as [|fuel IH]; intros st Hinv Hst; [done|].
  simpl. destruct (heap_empty (pq st)); [by intros [= <-]|].
  destruct (heap_pop (pq st)) as [[current rest]|] eqn:Hpop; [|by intros [= <-]].
  destruct (decide (node current = target)); [by intros [= <-]|].
  destruct (js_gt _ _) eqn:Hstale.
  - apply IH; [by apply (inv_turn_stale st current)|done].
  - apply IH; [by apply inv_turn_relax|].
    destruct (inv_pop _ _ _ Hinv Hpop) as (k & z & zk & -> & Hk & Hzk & Hcore & _).
    cbn [node key]. by apply (weighed_relax_all k z zk).
Qed.

Lemma route_weight_app (l1 l2 : list edge) :
  route_weight (l1 ++ l2) = route_weight l1 + route_weight l2.
Proof. induction l1 as [|e l1 IH]; simpl; [done|]. rewrite IH. lia. Qed.

(** What the walk along the predecessors appends is a route from the
    start read backwards, and the route weighs no more than the distance
    of the node the walk began at. *)
Lemma weighed_walk (fuel : nat) (st : state H) (k : string) (zk : Z)
    (acc path : list nodeid) :
  weighed st -> eff (distances st) k = Some zk ->
  walk_back fuel (predecessors st) (Bic s) (Bic k) acc = Some path ->
  exists links, route graph s links k /\
    path = acc ++ rev (map (fun e => Bic (to e)) links) /\
    z0 + route_weight links <= zk.
Proof.
  intros Hst. revert k zk acc.
  induction fuel as [|fuel IH]; intros k zk acc Hk; [done|].
  simpl. destruct (decide (Bic k = Bic s)) as [[= ->]|Hks].
  - intros [= <-]. exists []. rewrite eff_start in Hk. injection Hk as <-.
    split; [apply route_stay|]. split; [by rewrite app_nil_r|simpl; lia].
  - assert (Hne : k <> s) by congruence.
    rewrite (eff_other _ _ Hne) in Hk.
    destruct (Hst k zk Hne Hk) as (x & e & zx & Hx & He & Hto & Hex & Hsum).
    unfold predecessor; cbn [key]. rewrite Hx. simpl. intros Hwalk.
    destruct (IH x zx _ Hex Hwalk) as (links & Hroute & -> & Hle).
    exists (links ++ [e]). split; [|split].
    + rewrite <- Hto. by apply route_snoc with x.
    + rewrite map_app, rev_app_distr. simpl. rewrite Hto. by rewrite <- app_assoc.
    + rewrite route_weight_app. simpl. lia.
Qed.

(** *** The relaxation loop ends *)

Variable nodes : list string.
Hypothesis nodes_NoDup : NoDup nodes.
Hypothesis nodes_targets : forall k e, e ∈ edges_from graph k -> to e ∈ nodes.

(** Number of nodes whose recorded distance is falsy (none yet, or 0). *)
Definition falsy_count (d : gmap string jsval) : nat :=
  sum_list_with (fun k => if truthy (recorded d k) then 0%nat else 1%nat) nodes.

(** Sum of the recorded distances. *)
Definition total (d : gmap string jsval) : nat :=
  sum_list_with (fun k => match recorded d k with Num z => Z.to_nat z | _ => 0%nat end) nodes.

Definition work (st : state H) : nat :=
  (2 * total (distances st) + length (heap_items (pq st)))%nat.

Lemma sum_list_with_update (f g : string -> nat) (l : list string) (u : string) :
  NoDup l -> u ∈ l -> (forall k, k <> u -> g k = f k) ->
  (sum_list_with g l + f u = sum_list_with f l + g u)%nat.
Proof.
  intros Hnd Hu Hfg. induction Hnd as [|x l Hx Hnd IH]; [by apply elem_of_nil in Hu|].
  simpl. apply elem_of_cons in Hu as [->|Hu].
  - assert (Hsame : sum_list_with g l = sum_list_with f l).
    { clear IH Hnd. induction l as [|y l IHl]; [done|]. simpl.
      rewrite Hfg, IHl; [done| |].
      - intros Hx'. apply Hx. by apply list_elem_of_further.
      - intros ->. apply Hx, list_elem_of_here. }
    lia.
  - specialize (IH Hu). rewrite (Hfg x); [lia|]. by intros ->.
Qed.

(** Relaxing a link removes a falsy node, or does not add work. *)
Lemma relax_measure (k : string) (z zk : Z) (st : state H) (e : edge) :
  inv_core st ->
  eff (distances st) k = Some zk -> zk <= z ->
  e ∈ edges_from graph k ->
  (falsy_count (distances (relax weight (Entry (Bic k) (Num z)) st e))
   < falsy_count (distances st))%nat \/
  (falsy_count (distances (relax weight (Entry (Bic k) (Num z)) st e))
   = falsy_count (distances st) /\
   (work (relax weight (Entry (Bic k) (Num z)) st e) <= work st)%nat).
Proof.
  destruct st as [d p q]. cbn [distances predecessors pq].
  intros Hcore Hk Hzk He.
  destruct (wz_weight k e He) as (Hw & Hnn & Hpos).
  pose proof (eff_lower _ _ _ Hcore Hk) as Hz0k. cbn [distances] in Hz0k.
  pose proof (nodes_targets k e He) as Hin.
  destruct (relax_cases k z d p q e Hw) as [[-> _] | [-> Hupd]];
    cbn [distances predecessors pq]; [by right|].
  set (u := to e) in *. set (n := z + wz e) in *.
  assert (Hother : forall x, x <> u -> recorded (<[u := Num n]> d) x = recorded d x).
  { intros x Hx. unfold recorded. by rewrite lookup_insert_ne. }
  assert (Hnew : recorded (<[u := Num n]> d) u = Num n).
  { unfold recorded. by rewrite lookup_insert_eq. }
  assert (Hn : 0 < n) by (subst n; lia).
  pose proof (sum_list_with_update
    (fun k => if truthy (recorded d k) then 0%nat else 1%nat)
    (fun k => if truthy (recorded (<[u := Num n]> d) k) then 0%nat else 1%nat)
    nodes u nodes_NoDup Hin) as Hfalsy.
  pose proof (sum_list_with_update
    (fun k => match recorded d k with Num z => Z.to_nat z | _ => 0%nat end)
    (fun k => match recorded (<[u := Num n]> d) k with Num z => Z.to_nat z | _ => 0%nat end)
    nodes u nodes_NoDup Hin) as Htotal.
  cbv beta in Hfalsy, Htotal. rewrite Hnew in Hfalsy, Htotal.
  assert (Htn : truthy (Num n) = true).
  { simpl. apply negb_true_iff, Z.eqb_neq. lia. }
  rewrite Htn in Hfalsy.
  specialize (Hfalsy ltac:(by intros x Hx; rewrite Hother)).
  specialize (Htotal ltac:(by intros x Hx; rewrite Hother)).
  unfold falsy_count, total, work. cbn [distances pq].
  destruct (truthy (recorded d u)) eqn:Hold; cbv iota in Hfalsy; [|left; lia].
  right. split; [lia|].
  assert (Hlen : length (heap_items (heap_push (Entry (Bic u) (Num n)) q))
                 = S (length (heap_items q))).
  { by rewrite heap_items_push. }
  rewrite Hlen.
  assert (exists zt, recorded d u = Num zt /\ n < zt) as (zt & Hzt & Hlt).
  { unfold recorded in *. destruct (d !! u) as [[| |zt]|] eqn:Hd; simpl in Hold; try done.
    exists zt. split; [done|]. destruct (Hupd zt eq_refl) as [->|Hlt]; [done|done]. }
  rewrite Hzt in Htotal. unfold total. lia.
Qed.


Lemma relax_all_measure (k : string) (z zk : Z) (l : list edge) (st : state H) :
  inv_core st ->
  eff (distances st) k = Some zk -> zk <= z ->
  (forall e, e ∈ l -> e ∈ edges_from graph k) ->
  (falsy_count (distances (foldl (relax weight (Entry (Bic k) (Num z))) st l))
   < falsy_count (distances st))%nat \/
  (falsy_count (distances (foldl (relax weight (Entry (Bic k) (Num z))) st l))
   = falsy_count (distances st) /\
   (work (foldl (relax weight (Entry (Bic k) (Num z))) st l) <= work st)%nat).
Proof.
  revert st. induction l as [|e l IH]; intros st Hcore Hk Hzk Hl; [by right|].
  simpl.
  assert (He : e ∈ edges_from graph k) by apply Hl, list_elem_of_here.
  destruct (relax_step k z zk st e [] Hcore Hk Hzk He) as (Hcore1 & Hk1 & _);
    [by intros e' He'%elem_of_nil|].
  destruct (IH _ Hcore1 Hk1 Hzk) as [Hlt|[Heq Hle]];
    [intros e' He'; by apply Hl, list_elem_of_further| |];
    destruct (relax_measure k z zk st e Hcore Hk Hzk He) as [Hlt1|[Heq1 Hle1]].
  - left. lia.
  - left. lia.
  - left. lia.
  - right. split; lia.
Qed.

(** The relaxation loop is left after finitely many turns. *)
Lemma search_ends (target : nodeid) (a b : nat) (st : state H) :
  inv st -> falsy_count (distances st) = a -> work st = b ->
  exists fuel st', search graph fuel weight target st = Some st'.
Proof.
  revert b st. induction a as [a IHa] using lt_wf_ind.
  induction b as [b IHb] using lt_wf_ind. intros st Hinv Ha Hb.
  destruct (heap_empty (pq st)) eqn:Hemp.
  { exists 1%nat, st. simpl. by rewrite Hemp. }
  destruct (heap_pop (pq st)) as [[current rest]|] eqn:Hpop.
  2:{ exists 1%nat, st. simpl. by rewrite Hemp, Hpop. }
  destruct (decide (node current = target)) as [Hnode|Hnode].
  { exists 1%nat. eexists. simpl. rewrite Hemp, Hpop. by rewrite decide_True. }
  assert (Hlen : length (heap_items (pq st)) = S (length (heap_items rest))).
  { by rewrite (heap_pop_some _ _ _ Hpop). }
  destruct (js_gt (distance current) (recorded (distances st) (key (node current)))) eqn:Hstale.
  - destruct (IHb (work (State (distances st) (predecessors st) rest))) with
      (st := State (distances st) (predecessors st) rest) as (fuel & st' & Hrun).
    + unfold work in *. cbn [distances pq]. lia.
    + by apply (inv_turn_stale st current).
    + done.
    + done.
    + exists (S fuel), st'. by rewrite (search_skip _ _ _ _ st current rest).
  - pose proof (inv_turn_relax st current rest Hinv Hpop) as Hinv'.
    destruct (inv_pop _ _ _ Hinv Hpop) as (k & z & zk & -> & Hk & Hzk & Hcore & _).
    cbn [node key] in *.
    destruct (relax_all_measure k z zk (edges_from graph k)
                (State (distances st) (predecessors st) rest) Hcore Hk Hzk)
      as [Hlt|[Heq Hle]]; [done| |]; cbn [distances] in *.
    + destruct (IHa _ ltac:(rewrite <- Ha; exact Hlt) _ _ Hinv' eq_refl eq_refl)
        as (fuel & st' & Hrun).
      exists (S fuel), st'.
      by rewrite (search_turn _ _ _ _ st _ _ Hemp Hpop Hnode Hstale).
    + destruct (IHb (work (foldl (relax weight (Entry (Bic k) (Num z)))
                       (State (distances st) (predecessors st) rest) (edges_from graph k))))
        with (st := foldl (relax weight (Entry (Bic k) (Num z)))
                       (State (distances st) (predecessors st) rest) (edges_from graph k))
        as (fuel & st' & Hrun).
      * unfold work in *. cbn [distances pq] in *. lia.
      * done.
      * by rewrite Heq.
      * done.
      * exists (S fuel), st'.
        by rewrite (search_turn _ _ _ _ st _ _ Hemp Hpop Hnode Hstale).
Qed.

(** A search from [s] with start distance [z0] returns.  For an end that a
    route leads to it returns the nodes along a route and the weight of
    that route, which no route undercuts; for an end that no route leads
    to it returns [null]. *)
Lemma positive_run (t : string) :
  exists fuel r,
    (forall fuel', (fuel <= fuel')%nat ->
       exists st, search graph fuel' weight (Bic t) (initial (Bic s) (Num z0)) = Some st /\
         finish fuel' (Bic s) (Bic t) st = Some r) /\
    match r with
    | NoPath => forall links, ~ route graph s links t
    | Found path w =>
        exists links, route graph s links t /\
          path = Bic s :: map (fun e => Bic (to e)) links /\
          w = Num (z0 + route_weight links) /\
          forall links', route graph s links' t ->
            route_weight links <= route_weight links'
    end.
Proof.
  destruct (decide (t = s)) as [->|Hts].
  - exists 1%nat, (Found [Bic s] (Num z0)). split.
    + intros [|fuel'] Hle; [lia|].
      destruct (search_start_is_target graph fuel' weight (Bic s) (Num z0))
        as (st & Hrun & Hd & _).
      exists st. split; [done|]. by apply finish_start_is_target.
    + exists []. split; [apply route_stay|]. split; [done|].
      split; [simpl; do 2 f_equal; lia|]. intros links Hroute.
      pose proof (route_weight_nonneg _ _ _ Hroute). simpl. lia.
  - destruct (search_ends (Bic t) _ _ _ inv_initial eq_refl eq_refl) as (fuel1 & st & Hrun).
    pose proof (search_left_for _ _ _ _ Hts inv_initial Hrun) as Hleft.
    pose proof (weighed_search _ _ _ _ inv_initial weighed_initial Hrun) as Hweighed.
    destruct (decide (is_Some (distances st !! t))) as [Hrec|Hnone].
    + destruct (walk_back_ends st t [] (proj1 Hleft) Hrec) as (fuel2 & path & Hwalk).
      destruct Hrec as [v Hv].
      destruct (core_num _ (proj1 Hleft) _ _ Hv) as (zt & -> & _).
      assert (Ht : eff (distances st) t = Some zt).
      { rewrite (eff_other _ _ Hts). by apply dist_of_Some. }
      destruct (weighed_walk _ _ _ _ _ _ Hweighed Ht Hwalk) as (links & Hroute & Hpath & Hle).
      destruct (left_for_least t st links Hts Hleft Hroute) as (zt' & Hzt' & Hge).
      rewrite Hv in Hzt'. injection Hzt' as <-.
      assert (zt = z0 + route_weight links) as -> by lia.
      exists (max fuel1 fuel2), (Found (rev (path ++ [Bic s])) (Num (z0 + route_weight links))).
      split.
      * intros fuel' Hle'. exists st. split.
        -- apply (search_fuel_mono _ fuel1); [done|lia].
        -- unfold finish. cbn [key]. rewrite decide_True by (by eexists).
           rewrite (walk_back_fuel_mono fuel2 fuel' _ _ _ _ _ Hwalk) by lia.
           unfold recorded. by rewrite Hv.
      * exists links. split; [done|]. split.
        { rewrite Hpath. simpl. rewrite rev_app_distr. simpl. by rewrite rev_involutive. }
        split; [done|]. intros links' Hroute'.
        destruct (left_for_least t st links' Hts Hleft Hroute') as (zt' & Hzt' & Hle').
        rewrite Hv in Hzt'. injection Hzt' as <-. lia.
    + exists fuel1, NoPath. split.
      * intros fuel' Hle. exists st. split.
        -- by apply (search_fuel_mono _ fuel1).
        -- unfold finish. cbn [key]. by rewrite decide_False.
      * intros links Hroute.
        destruct (left_for_least t st links Hts Hleft Hroute) as (zt' & Hzt' & _).
        apply Hnone. by eexists.
Qed.

End Positive.

(** ** Both searches on positive weights *)

Lemma link_ends_elem (graph : gmap string (list edge)) (k : string) (e : edge) :
  e ∈ edges_from graph k -> to e ∈ link_ends graph.
Proof.
  unfold edges_from, link_ends. intros He.
  destruct (graph !! k) as [links|] eqn:Hk; simpl in He; [|by apply elem_of_nil in He].
  apply elem_of_elements, elem_of_list_to_set, list_elem_of_bind.
  exists (k, links). split; [|by apply elem_of_map_to_list].
  simpl. by apply list_elem_of_fmap_2.
Qed.

Lemma link_ends_NoDup (graph : gmap string (list edge)) : NoDup (link_ends graph).
Proof. unfold link_ends. apply NoDup_elements. Qed.

Lemma positive_times_link (graph : gmap string (list edge)) (k : string) (e : edge) :
  positive_times graph -> e ∈ edges_from graph k -> 0 < time e.
Proof.
  unfold edges_from. intros Hpos He.
  destruct (graph !! k) as [links|] eqn:Hk; simpl in He; [|by apply elem_of_nil in He].
  specialize (Hpos k links Hk). simpl in Hpos.
  rewrite Forall_forall in Hpos. by apply Hpos.
Qed.

Lemma nonnegative_charges_link (banks : gmap string Z) (graph : gmap string (list edge))
    (k : string) (e : edge) :
  nonnegative_charges banks graph -> e ∈ edges_from graph k ->
  exists c, banks !! to e = Some c /\ 0 <= c.
Proof.
  unfold edges_from. intros Hpos He.
  destruct (graph !! k) as [links|] eqn:Hk; simpl in He; [|by apply elem_of_nil in He].
  specialize (Hpos k links Hk). simpl in Hpos.
  rewrite Forall_forall in Hpos. specialize (Hpos _ He).
  unfold charged in Hpos. destruct (banks !! to e) as [c|]; [|done].
  exists c. split; [done|]. by apply bool_decide_eq_true in Hpos.
Qed.

Lemma route_weight_time (links : list edge) :
  route_weight time_of links = route_time links.
Proof. induction links as [|e links IH]; simpl; [done|]. by rewrite IH. Qed.

Lemma route_weight_charge (banks : gmap string Z) (graph : gmap string (list edge))
    (x t : string) (links : list edge) :
  nonnegative_charges banks graph -> route graph x links t ->
  route_weight (charge_of banks) links = route_charges banks links.
Proof.
  intros Hpos. induction 1 as [x|x e links t He _ IH]; simpl; [done|].
  rewrite IH. f_equal.
  destruct (nonnegative_charges_link _ _ _ _ Hpos He) as (c & Hc & _).
  unfold wz, charge_of, charge, charge_number. by rewrite Hc.
Qed.

Section PositiveSearches.
Context {H : Type} `{!Heap H}.
Variable banks : gmap string Z.
Variable graph : gmap string (list edge).

(** X1. On a graph whose keys and link ends are plain, with every link
    taking 1 minute or more and twice the times of all links below 2^53,
    [dijkstraFastest] returns for every pair of plain BICs; it returns
    [null] exactly when no route leads from the start to the end, and
    otherwise the nodes along a route from the start to the end with the
    total time of that route, which no route undercuts. *)
Theorem fastest_on_positive_times (s t : string) :
  plain s -> plain t -> plain_graph graph -> exact_times graph ->
  positive_times graph ->
  exists fuel r,
    (forall fuel', (fuel <= fuel')%nat ->
       dijkstraFastest graph fuel' (Bic s) (Bic t) = Some r) /\
    match r with
    | NoPath => forall links, ~ route graph s links t
    | Found path w =>
        exists links, route graph s links t /\
          path = Bic s :: map (fun e => Bic (to e)) links /\
          w = Num (route_time links) /\
          forall links', route graph s links' t -> route_time links <= route_time links'
    end.
Proof.
  intros _ _ _ _ Hpos.
  destruct (positive_run graph s time_of 0) with (nodes := link_ends graph) (t := t)
    as (fuel & r & Hrun & Hres).
  - intros k e He. exists (time e). split; [done|].
    pose proof (positive_times_link graph k e Hpos He). lia.
  - apply link_ends_NoDup.
  - apply link_ends_elem.
  - exists fuel, r. split.
    + intros fuel' Hle. destruct (Hrun fuel' Hle) as (st & Hsearch & Hfinish).
      unfold dijkstraFastest. by rewrite Hsearch.
    + destruct r as [|path w]; [done|].
      destruct Hres as (links & Hroute & -> & -> & Hleast).
      exists links. split; [done|]. split; [done|].
      rewrite route_weight_time. split; [done|].
      intros links' Hroute'. specialize (Hleast links' Hroute').
      by rewrite !route_weight_time in Hleast.
Qed.

(** X2. On a graph whose keys and link ends are plain, with whole charges
    that twice added up stay below 2^53: when the start has a charge
    above 0 (as the request check demands of it) and every end of a link
    has a charge entry of 0 or more, [dijkstraCheapest] returns for every
    pair of plain BICs; it returns [null] exactly when no route leads
    from the start to the end, and otherwise the nodes along a route from
    the start to the end with the charges of those nodes (the start's
    included) added up, which the charges along no route undercut. *)
Theorem cheapest_on_charged_nodes (s t : string) (c0 : Z) :
  plain s -> plain t -> plain_graph graph -> exact_charges banks ->
  banks !! s = Some c0 -> 0 < c0 ->
  nonnegative_charges banks graph ->
  exists fuel r,
    (forall fuel', (fuel <= fuel')%nat ->
       dijkstraCheapest banks graph fuel' (Bic s) (Bic t) = Some r) /\
    match r with
    | NoPath => forall links, ~ route graph s links t
    | Found path w =>
        exists links, route graph s links t /\
          path = Bic s :: map (fun e => Bic (to e)) links /\
          w = Num (c0 + route_charges banks links) /\
          forall links', route graph s links' t ->
            route_charges banks links <= route_charges banks links'
    end.
Proof.
  intros _ _ _ _ Hs Hc0 Hpos.
  destruct (positive_run graph s (charge_of banks) c0)
    with (nodes := link_ends graph) (t := t) as (fuel & r & Hrun & Hres).
  - intros k e He. destruct (nonnegative_charges_link _ _ _ _ Hpos He) as (c & Hc & Hle).
    exists c. split; [|lia]. unfold charge_of, charge. by rewrite Hc.
  - apply link_ends_NoDup.
  - apply link_ends_elem.
  - assert (Hinit : charge banks (key (Bic s)) = Num c0).
    { unfold charge; cbn [key]. by rewrite Hs. }
    exists fuel, r. split.
    + intros fuel' Hle. destruct (Hrun fuel' Hle) as (st & Hsearch & Hfinish).
      unfold dijkstraCheapest. by rewrite Hinit, Hsearch.
    + destruct r as [|path w]; [done|].
      destruct Hres as (links & Hroute & -> & -> & Hleast).
      exists links. split; [done|]. split; [done|].
      rewrite (route_weight_charge banks graph s t) by done. split; [done|].
      intros links' Hroute'. specialize (Hleast links' Hroute').
      by rewrite !(route_weight_charge banks graph s t) in Hleast.
Qed.

(** X3. On a graph whose keys and link ends are plain, with whole charges
    that twice added up stay below 2^53, none negative, and a charge
    entry for every end of a link: a request whose [fromBank] and
    [toBank] are both there, as plain strings, and that passes the check
    of the cheapest route endpoint is answered 404 exactly when no route
    leads from [fromBank] to [toBank], otherwise 200 with the nodes along
    a route joined by arrows and the charges of those nodes added up,
    which the charges along no route undercut. *)
Theorem cheapestroute_answers (s t : string) :
  plain s -> plain t -> plain_graph graph -> exact_charges banks ->
  map_Forall (fun _ c => 0 <= c) banks ->
  nonnegative_charges banks graph ->
  rejected banks (Request (Bic s) (Bic t)) = false ->
  exists fuel resp,
    (forall fuel', (fuel <= fuel')%nat ->
       cheapestroute banks graph fuel' (Request (Bic s) (Bic t)) = Some resp) /\
    match resp with
    | InvalidBank => False
    | NoPathFound => forall links, ~ route graph s links t
    | Route text w =>
        exists links, route graph s links t /\
          text = join (Bic s :: map (fun e => Bic (to e)) links) /\
          w = Num (charge_number banks s + route_charges banks links) /\
          forall links', route graph s links' t ->
            route_charges banks links <= route_charges banks links'
    end.
Proof.
  intros _ _ _ _ Hnn Hpos Hpass.
  assert (exists c0, banks !! s = Some c0 /\ 0 < c0) as (c0 & Hs & Hc0).
  { unfold rejected, charge in Hpass. cbn [fromBank toBank key] in Hpass.
    apply orb_false_elim in Hpass as [Hfrom _].
    destruct (banks !! s) as [c|] eqn:Hs; [|done]. simpl in Hfrom.
    apply negb_false_iff, negb_true_iff, Z.eqb_neq in Hfrom.
    exists c. split; [done|]. specialize (Hnn _ _ Hs). simpl in Hnn. lia. }
  destruct (positive_run graph s (charge_of banks) c0)
    with (nodes := link_ends graph) (t := t) as (fuel & r & Hrun & Hres).
  - intros k e He. destruct (nonnegative_charges_link _ _ _ _ Hpos He) as (c & Hc & Hle).
    exists c. split; [|lia]. unfold charge_of, charge. by rewrite Hc.
  - apply link_ends_NoDup.
  - apply link_ends_elem.
  - assert (Hinit : charge banks (key (Bic s)) = Num c0).
    { unfold charge; cbn [key]. by rewrite Hs. }
    exists fuel, (respond r). split.
    + intros fuel' Hle. destruct (Hrun fuel' Hle) as (st & Hsearch & Hfinish).
      unfold cheapestroute. rewrite Hpass. cbn [fromBank toBank].
      unfold dijkstraCheapest. by rewrite Hinit, Hsearch, Hfinish.
    + destruct r as [|path w]; [done|]. simpl.
      destruct Hres as (links & Hroute & -> & -> & Hleast).
      exists links. split; [done|]. split; [done|].
      rewrite (route_weight_charge banks graph s t) by done.
      unfold charge_number at 1. rewrite Hs. split; [done|].
      intros links' Hroute'. specialize (Hleast links' Hroute').
      by rewrite !(route_weight_charge banks graph s t) in Hleast.
Qed.

End PositiveSearches.

(** ** What loading leaves in the two stores *)





(** ** A request from a bank to itself *)

Section RequestCheck.
Context {H : Type} `{!Heap H}.
Variable banks : gmap string Z.
Variable graph : gmap string (list edge).

(** X9. A request from a bank to itself that passes the check is answered
    200 by both endpoints: the route is the BIC alone, the time is 0 and
    the cost is the charge of the bank. *)
Theorem same_bank_request (fuel : nat) (s : string) (c : Z) :
  banks !! s = Some c -> c <> 0 ->
  fastestroute banks graph (S fuel) (Request (Bic s) (Bic s)) = Some (Route s (Num 0)) /\
  cheapestroute banks graph (S fuel) (Request (Bic s) (Bic s)) = Some (Route s (Num c)).
Proof.
  intros Hs Hc. unfold fastestroute, cheapestroute.
  rewrite (rejected_nonzero banks (Request (Bic s) (Bic s)) c c) by done.
  cbn [fromBank toBank]. unfold dijkstraFastest, dijkstraCheapest.
  destruct (search_start_is_target graph fuel time_of (Bic s) (Num 0)) as (st1 & -> & Hd1 & _).
  destruct (search_start_is_target graph fuel (charge_of banks) (Bic s)
              (charge banks (key (Bic s)))) as (st2 & -> & Hd2 & _).
  rewrite (finish_start_is_target fuel (Bic s) st1 (Num 0) Hd1).
  rewrite (finish_start_is_target fuel (Bic s) st2 _ Hd2).
  unfold charge. cbn [key]. rewrite Hs. done.
Qed.

End RequestCheck.

(** ** No node twice in a returned path *)

Section NoRepeat.
Context {H : Type} `{!Heap H}.
Variable banks : gmap string Z.
Variable graph : gmap string (list edge).

(** The walk appends the same nodes whatever [path] holds already. *)
Lemma walk_back_acc (fuel : nat) (p : gmap string nodeid) (start current : nodeid)
    (acc path : list nodeid) :
  walk_back fuel p start current acc = Some path ->
  exists chain, path = acc ++ chain /\
    forall acc', walk_back fuel p start current acc' = Some (acc' ++ chain).
Proof.
  revert current acc. induction fuel as [|fuel IH]; intros current acc; [done|].
  simpl. destruct (decide (current = start)) as [->|Hne].
  - intros [= <-]. exists []. split; [by rewrite app_nil_r|].
    intros acc'. by rewrite app_nil_r.
  - intros Hrun. destruct (IH _ _ Hrun) as (chain & -> & Hall).
    exists (current :: chain). split; [by rewrite <- app_assoc|].
    intros acc'. rewrite Hall. by rewrite <- app_assoc.
Qed.

(** From a node it passes, the walk goes on as it would from there. *)
Lemma walk_back_from (fuel : nat) (p : gmap string nodeid) (start current x : nodeid)
    (chain : list nodeid) :
  walk_back fuel p start current [] = Some chain -> x ∈ chain ->
  exists l1 l2, chain = l1 ++ x :: l2 /\
    walk_back fuel p start x [] = Some (x :: l2).
Proof.
  revert current chain. induction fuel as [|fuel IH]; intros current chain; [done|].
  simpl. destruct (decide (current = start)) as [->|Hne].
  { intros [= <-] Hx. by apply elem_of_nil in Hx. }
  intros Hrun Hx.
  destruct (walk_back_acc _ _ _ _ _ _ Hrun) as (rest & -> & Hall).
  specialize (Hall []). simpl in Hall.
  simpl in Hx. apply elem_of_cons in Hx as [->|Hx].
  - exists [], rest. split; [done|].
    destruct (decide (current = start)); [done|]. exact Hrun.
  - destruct (IH _ _ Hall Hx) as (l1 & l2 & -> & Hfrom).
    exists (current :: l1), l2. split; [done|].
    apply (walk_back_fuel_mono fuel (S fuel)) in Hfrom; [|lia]. exact Hfrom.
Qed.

(** A walk that ends passes no node twice and does not pass the start. *)
Lemma walk_back_NoDup (fuel : nat) (p : gmap string nodeid) (start current : nodeid)
    (chain : list nodeid) :
  walk_back fuel p start current [] = Some chain ->
  NoDup chain /\ start ∉ chain.
Proof.
  revert current chain. induction fuel as [|fuel IH]; intros current chain; [done|].
  intros Hfull. pose proof Hfull as Hrun. simpl in Hrun.
  destruct (decide (current = start)) as [->|Hne].
  { injection Hrun as <-. split; [constructor|]. by intros Hx%elem_of_nil. }
  destruct (walk_back_acc _ _ _ _ _ _ Hrun) as (rest & -> & Hall).
  specialize (Hall []). simpl in Hall.
  destruct (IH _ _ Hall) as [Hnd Hstart]. simpl. split.
  - constructor; [|done]. intros Hin.
    destruct (walk_back_from _ _ _ _ _ _ Hall Hin) as (l1 & l2 & Hrest & Hfrom).
    apply (walk_back_fuel_mono fuel (S fuel)) in Hfrom; [|lia].
    rewrite Hfull in Hfrom. injection Hfrom as Hlen. rewrite Hlen in Hrest.
    apply (f_equal length) in Hrest. rewrite length_app in Hrest. simpl in Hrest. lia.
  - intros [->|Hin]%elem_of_cons; done.
Qed.

Lemma finish_NoDup (fuel : nat) (start target : nodeid) (st : state H)
    (path : list nodeid) (w : jsval) :
  finish fuel start target st = Some (Found path w) -> NoDup path.
Proof.
  unfold finish.
  destruct (decide (is_Some (distances st !! key target))); [|done].
  destruct (walk_back fuel _ _ _ _) as [walked|] eqn:E; [|done].
  intros [= <- _]. destruct (walk_back_NoDup _ _ _ _ _ E) as [Hnd Hstart].
  rewrite <- Permutation_rev. apply NoDup_app. split; [done|]. split.
  - intros x Hx ->%list_elem_of_singleton. done.
  - apply NoDup_singleton.
Qed.

(** X10. No node comes twice in a path that [dijkstraFastest] or
    [dijkstraCheapest] returns, whatever the link times and the charges. *)
Theorem found_path_no_repeat (fuel : nat) (start target : nodeid)
    (path : list nodeid) (w : jsval) :
  dijkstraFastest graph fuel start target = Some (Found path w) \/
  dijkstraCheapest banks graph fuel start target = Some (Found path w) ->
  NoDup path.
Proof.
  unfold dijkstraFastest, dijkstraCheapest. intros [Hrun|Hrun].
  - destruct (search graph fuel _ _ _) as [st|]; [|done]. by eapply finish_NoDup.
  - destruct (search graph fuel _ _ _) as [st|]; [|done]. by eapply finish_NoDup.
Qed.

End NoRepeat.

(** ** The weight returned is the weight of a route *)

(** A search from [s] with a number [z0] as start distance, whatever the
    weights are: numbers of any sign, [undefined] or [NaN]. *)
Section Priced.
Context {H : Type} `{!Heap H}.
Variable graph : gmap string (list edge).
Variable s : string.
Variable weight : edge -> jsval.
Variable z0 : Z.

(** The weight of every link of the list is a number. *)
Definition numbered (links : list edge) : Prop :=
  Forall (fun e => exists w, weight e = Num w) links.

(** Every recorded distance and every distance in the queue is [z0] plus
    the weights along a route from the start to the node. *)
Definition priced (st : state H) : Prop :=
  (forall k v, distances st !! k = Some v ->
     exists links, route graph s links k /\ numbered links /\
       v = Num (z0 + route_weight weight links)) /\
  (forall e, e ∈ heap_items (pq st) ->
     exists k links, route graph s links k /\ numbered links /\
       e = Entry (Bic k) (Num (z0 + route_weight weight links))).

Lemma priced_initial : priced (initial (Bic s) (Num z0)).
Proof.
  assert (Hz : Num z0 = Num (z0 + route_weight weight [])) by (simpl; f_equal; lia).
  split.
  - intros k v Hk. unfold initial in Hk; cbn [distances key] in Hk.
    apply lookup_singleton_Some in Hk as [<- <-]. exists [].
    split; [apply route_stay|]. split; [constructor|done].
  - intros e He. rewrite initial_items in He.
    apply list_elem_of_singleton in He as ->. exists s, [].
    split; [apply route_stay|]. split; [constructor|]. by rewrite <- Hz.
Qed.

(** A candidate that is written is a number, and so is the weight added. *)
Lemma written_number (z : Z) (v d : jsval) :
  lt_or_infinity (js_add (Num z) v) d = true -> exists w, v = Num w.
Proof.
  destruct v as [| |w]; [| |by exists w];
    unfold lt_or_infinity; simpl; by destruct (truthy d).
Qed.

Lemma priced_relax (k : string) (links : list edge) (neighbor : edge) (st : state H) :
  route graph s links k -> numbered links ->
  neighbor ∈ edges_from graph k ->
  priced st ->
  priced (relax weight (Entry (Bic k) (Num (z0 + route_weight weight links))) st neighbor).
Proof.
  intros Hroute Hnum Hin [Hd Hq]. unfold relax. cbn [distance node].
  destruct (lt_or_infinity _ _) eqn:Hlt; [|done].
  destruct (written_number _ _ _ Hlt) as (w & Hw).
  assert (Hnew : exists links', route graph s links' (to neighbor) /\ numbered links' /\
            js_add (Num (z0 + route_weight weight links)) (weight neighbor)
            = Num (z0 + route_weight weight links')).
  { exists (links ++ [neighbor]). split; [by apply route_snoc with k|]. split.
    - apply Forall_app. split; [done|]. apply Forall_singleton. by exists w.
    - rewrite route_weight_app. unfold route_weight at 3, wz. simpl.
      rewrite Hw. simpl. f_equal. lia. }
  destruct Hnew as (links' & Hroute' & Hnum' & Heq). rewrite Heq.
  split; cbn [distances pq].
  - intros k' v. rewrite lookup_insert.
    destruct (decide (to neighbor = k')) as [<-|Hne]; [|by apply Hd].
    intros [= <-]. by exists links'.
  - intros e He. rewrite heap_items_push in He.
    apply elem_of_cons in He as [->|He]; [|by apply Hq].
    by exists (to neighbor), links'.
Qed.

Lemma priced_relax_all (k : string) (links : list edge) (l : list edge) (st : state H) :
  route graph s links k -> numbered links ->
  (forall neighbor, neighbor ∈ l -> neighbor ∈ edges_from graph k) ->
  priced st ->
  priced (foldl (relax weight (Entry (Bic k) (Num (z0 + route_weight weight links)))) st l).
Proof.
  intros Hroute Hnum. revert st. induction l as [|neighbor l IH]; intros st Hl Hst; [done|].
  simpl. apply IH.
  - intros n Hn. apply Hl. by apply list_elem_of_further.
  - apply priced_relax; try done. apply Hl, list_elem_of_here.
Qed.

Lemma priced_search (fuel : nat) (target : nodeid) (st st' : state H) :
  priced st -> search graph fuel weight target st = Some st' -> priced st'.
Proof.
  revert st. induction fuel as [|fuel IH]; intros st Hst; [done|].
  simpl. destruct (heap_empty (pq st)); [by intros [= <-]|].
  destruct (heap_pop (pq st)) as [[current rest]|] eqn:Hpop; [|by intros [= <-]].
  pose proof (heap_pop_some _ _ _ Hpop) as Hperm.
  destruct Hst as [Hd Hq].
  assert (Hrest : priced (State (distances st) (predecessors st) rest)).
  { split; [done|]. cbn [pq]. intros e He. apply Hq. rewrite Hperm.
    by apply list_elem_of_further. }
  destruct (decide (node current = target)); [by intros [= <-]|].
  destruct (js_gt _ _); [by apply IH|].
  apply IH.
  destruct (Hq current) as (k & links & Hroute & Hnum & ->).
  { rewrite Hperm. apply list_elem_of_here. }
  cbn [node key]. by apply priced_relax_all.
Qed.

Lemma priced_found (fuel : nat) (d0 : jsval) (t : string)
    (path : list nodeid) (w : jsval) :
  d0 = Num z0 ->
  match search graph fuel weight (Bic t) (initial (Bic s) d0) with
  | None => None
  | Some st => finish fuel (Bic s) (Bic t) st
  end = Some (Found path w) ->
  exists links, route graph s links t /\ numbered links /\
    w = Num (z0 + route_weight weight links).
Proof.
  intros ->. destruct (search graph fuel _ _ _) as [st|] eqn:E; [|done].
  destruct (priced_search _ _ _ _ priced_initial E) as [Hd _].
  unfold finish, recorded. cbn [key].
  destruct (decide (is_Some (distances st !! t))) as [[v Hv]|_]; [|done].
  destruct (walk_back fuel _ _ _ _); [|done]. intros [= _ <-].
  rewrite Hv. simpl. by apply Hd.
Qed.

End Priced.



Section Weights.
Context {H : Type} `{!Heap H}.
Variable banks : gmap string Z.
Variable graph : gmap string (list edge).

(** X11. On a graph whose keys and link ends are plain, with no negative
    time and twice the times of all links below 2^53, also when links
    take 0 minutes: the time that [dijkstraFastest] returns for two plain
    BICs is the total time of a route from the start to the end, never a
    time that no route has. *)
Theorem fastest_time_of_a_route (fuel : nat) (s t : string)
    (path : list nodeid) (w : jsval) :
  plain s -> plain t -> plain_graph graph ->
  nonnegative_times graph -> exact_times graph ->
  dijkstraFastest graph fuel (Bic s) (Bic t) = Some (Found path w) ->
  exists links, route graph s links t /\ w = Num (route_time links).
Proof.
  unfold dijkstraFastest. intros _ _ _ _ _ Hrun.
  destruct (priced_found graph s time_of 0 fuel (Num 0) t path w eq_refl Hrun)
    as (links & Hroute & _ & ->).
  exists links. split; [done|]. by rewrite route_weight_time.
Qed.


End Weights.

(** ** A start that leads nowhere *)

Section DeadStart.
Context {H : Type} `{!Heap H}.
Variable banks : gmap string Z.
Variable graph : gmap string (list edge).

(** A candidate made from a distance that is not a number is [NaN], and
    is not written. *)
Lemma relax_from_no_number (weight : edge -> jsval) (current : entry) (l : list edge)
    (st : state H) :
  (forall z, distance current <> Num z) ->
  foldl (relax weight current) st l = st.
Proof.
  intros Hno. revert st. induction l as [|e l IH]; intros st; [done|].
  simpl. rewrite <- (IH st) at 2. f_equal. unfold relax.
  destruct (distance current) as [| |z]; [| |by destruct (Hno z)];
    unfold lt_or_infinity; simpl; by destruct (truthy _).
Qed.

(** The two turns of a search whose start entry writes nothing. *)
Lemma search_dead_start (fuel : nat) (weight : edge -> jsval) (start target : nodeid)
    (d0 : jsval) :
  target <> start ->
  (forall z, d0 <> Num z) \/ edges_from graph (key start) = [] ->
  exists st, search graph (S (S fuel)) weight target (initial start d0) = Some st /\
    distances st = {[ key start := d0 ]} /\ predecessors st = ∅.
Proof.
  intros Hkey Hdead.
  destruct (heap_pop_singleton _ _ (initial_items (H:=H) start d0))
    as [Hemp (rest & Hpop & Hrest)].
  assert (Hne : node (Entry start d0) <> target) by (simpl; congruence).
  assert (Hfresh : js_gt (distance (Entry start d0))
                     (recorded (distances (initial (H:=H) start d0))
                        (key (node (Entry start d0)))) = false).
  { unfold initial, recorded, js_gt; cbn [distance node distances].
    rewrite lookup_singleton_eq. simpl. destruct d0 as [| |z]; simpl; [done|done|].
    apply Z.ltb_irrefl. }
  rewrite (search_turn graph (S fuel) weight target _ _ _ Hemp Hpop Hne Hfresh).
  cbn [node key].
  assert (Hsame : foldl (relax weight (Entry start d0))
                    (State (distances (initial (H:=H) start d0))
                       (predecessors (initial (H:=H) start d0)) rest)
                    (edges_from graph (key start))
                  = State (distances (initial (H:=H) start d0))
                      (predecessors (initial (H:=H) start d0)) rest).
  { destruct Hdead as [Hno| ->]; [|done]. by apply relax_from_no_number. }
  rewrite Hsame.
  exists (State (distances (initial (H:=H) start d0))
            (predecessors (initial (H:=H) start d0)) rest).
  split; [|done]. apply heap_empty_items in Hrest.
  cbn [search pq]. by rewrite Hrest.
Qed.

Lemma finish_not_recorded (fuel : nat) (start target : nodeid) (st : state H) (d0 : jsval) :
  key target <> key start ->
  distances st = {[ key start := d0 ]} ->
  finish fuel start target st = Some NoPath.
Proof.
  intros Hkey Hd. unfold finish. rewrite Hd.
  destruct (decide _) as [[v Hv]|]; [|done].
  apply lookup_singleton_Some in Hv as [Heq _]. by destruct Hkey.
Qed.

(** X13. From a start under a plain key with no link in [graph], both
    searches return [null] for every end under another plain key: the
    start is popped, nothing is relaxed and the queue is found empty. *)
Theorem start_without_links (fuel : nat) (start target : nodeid) :
  plain (key start) -> plain (key target) ->
  edges_from graph (key start) = [] ->
  key target <> key start ->
  dijkstraFastest graph (S (S fuel)) start target = Some NoPath /\
  dijkstraCheapest banks graph (S (S fuel)) start target = Some NoPath.
Proof.
  intros _ _ Hnone Hkey. unfold dijkstraFastest, dijkstraCheapest. split.
  - destruct (search_dead_start fuel time_of start target (Num 0))
      as (st & -> & Hd & _); [congruence|by right|].
    by apply (finish_not_recorded _ _ _ _ (Num 0)).
  - destruct (search_dead_start fuel (charge_of banks) start target
                (charge banks (key start))) as (st & -> & Hd & _); [congruence|by right|].
    by apply (finish_not_recorded _ _ _ _ (charge banks (key start))).
Qed.

(** X14. On a graph whose keys and link ends are plain, a call of
    [dijkstraCheapest] from a start under a plain key without a charge
    entry returns [null] for every end under another plain key, whatever
    links leave the start: every candidate is [NaN] and none is
    written.  (The endpoint rejects such a start; this is the function
    called by itself.) *)
Theorem cheapest_start_without_charge (fuel : nat) (start target : nodeid) :
  plain (key start) -> plain (key target) -> plain_graph graph ->
  banks !! key start = None ->
  key target <> key start ->
  dijkstraCheapest banks graph (S (S fuel)) start target = Some NoPath.
Proof.
  intros _ _ _ Hnone Hkey. unfold dijkstraCheapest.
  assert (Hd0 : charge banks (key start) = Undefined).
  { unfold charge. by rewrite Hnone. }
  rewrite Hd0.
  destruct (search_dead_start fuel (charge_of banks) start target Undefined)
    as (st & -> & Hd & _); [congruence|by left|].
  by apply (finish_not_recorded _ _ _ _ Undefined).
Qed.

(** From [undefined] the walk along the predecessors makes no way: the
    predecessor of [undefined] is looked up under the key "undefined". *)
Lemma walk_back_stuck (fuel : nat) (p : gmap string nodeid) (start : nodeid)
    (path : list nodeid) :
  start <> Missing -> p !! "undefined"%string = None ->
  walk_back fuel p start Missing path = None.
Proof.
  intros Hstart Hp. revert path. induction fuel as [|fuel IH]; intros path; [done|].
  simpl. destruct (decide (Missing = start)) as [<-|_]; [done|].
  unfold predecessor. cbn [key]. rewrite Hp. apply IH.
Qed.

(** X18. When a bank is stored under the BIC "undefined" with a charge
    other than 0 and begins no link, a request from it without [toBank]
    passes the check, and the handler of either endpoint gives none of
    its three answers (200, 404, 400): the end [undefined] counts as
    recorded under the key of the start, and the walk along the
    predecessors stays at [undefined], which is never the start.  It
    returns no path; in Node it goes on until [path.push] raises
    [RangeError], which is answered outside the handler. *)
Theorem missing_end_never_answered (fuel : nat) (c : Z) :
  banks !! "undefined"%string = Some c -> c <> 0 ->
  edges_from graph "undefined" = [] ->
  rejected banks (Request (Bic "undefined") Missing) = false /\
  fastestroute banks graph fuel (Request (Bic "undefined") Missing) = None /\
  cheapestroute banks graph fuel (Request (Bic "undefined") Missing) = None.
Proof.
  intros Hc Hnz Hnone.
  assert (Hpass : rejected banks (Request (Bic "undefined") Missing) = false)
    by (by apply (rejected_nonzero banks _ c c)).
  assert (Hstuck : forall (st : state H) d0,
            distances st = {[ "undefined"%string := d0 ]} -> predecessors st = ∅ ->
            finish (S (S fuel)) (Bic "undefined") Missing st = None).
  { intros st d0 Hd Hp. unfold finish. cbn [key]. rewrite Hd, lookup_singleton_eq.
    destruct (decide _) as [_|[]]; [|by eexists].
    by rewrite walk_back_stuck; [| |rewrite Hp]. }
  split; [done|]. unfold fastestroute, cheapestroute. rewrite Hpass.
  cbn [fromBank toBank]. split.
  - destruct (dijkstraFastest graph fuel _ _) as [r|] eqn:Hrun; [|done].
    apply (dijkstraFastest_fuel_mono _ _ (S (S fuel))) in Hrun; [|lia].
    unfold dijkstraFastest in Hrun.
    destruct (search_dead_start fuel time_of (Bic "undefined") Missing (Num 0))
      as (st & Hsearch & Hd & Hp); [done|by right|].
    rewrite Hsearch in Hrun. by rewrite (Hstuck st _ Hd Hp) in Hrun.
  - destruct (dijkstraCheapest banks graph fuel _ _) as [r|] eqn:Hrun; [|done].
    apply (dijkstraCheapest_fuel_mono _ _ _ (S (S fuel))) in Hrun; [|lia].
    unfold dijkstraCheapest in Hrun.
    destruct (search_dead_start fuel (charge_of banks) (Bic "undefined") Missing
                (charge banks (key (Bic "undefined"))))
      as (st & Hsearch & Hd & Hp); [done|by right|].
    rewrite Hsearch in Hrun. by rewrite (Hstuck st _ Hd Hp) in Hrun.
Qed.

End DeadStart.

(** ** Answers on positive times, and how they compose *)

Lemma route_app (graph : gmap string (list edge)) (a b c : string) (l1 l2 : list edge) :
  route graph a l1 b -> route graph b l2 c -> route graph a (l1 ++ l2) c.
Proof.
  induction 1 as [a|a e l1 b He _ IH]; intros H2; [done|].
  simpl. apply route_step; [done|by apply IH].
Qed.

Lemma route_time_app (l1 l2 : list edge) :
  route_time (l1 ++ l2) = route_time l1 + route_time l2.
Proof. induction l1 as [|e l1 IH]; simpl; [done|]. rewrite IH. lia. Qed.

Lemma route_load_links (rows : list (string * string * Z)) (graph : gmap string (list edge))
    (s t : string) (links : list edge) :
  route graph s links t -> route (load_links rows graph) s links t.
Proof.
  induction 1 as [s|s e links t He _ IH]; [apply route_stay|].
  apply route_step; [|done]. rewrite load_links_edges. apply elem_of_app. by left.
Qed.

Section PositiveTimes.
Context {H : Type} `{!Heap H}.
Variable banks : gmap string Z.
Variable graph : gmap string (list edge).

(** What [dijkstraFastest] returns when every link takes 1 minute or
    more. *)
Lemma fastest_positive_run (s t : string) :
  positive_times graph ->
  exists fuel r,
    (forall fuel', (fuel <= fuel')%nat ->
       dijkstraFastest graph fuel' (Bic s) (Bic t) = Some r) /\
    match r with
    | NoPath => forall links, ~ route graph s links t
    | Found path w =>
        exists links, route graph s links t /\
          path = Bic s :: map (fun e => Bic (to e)) links /\
          w = Num (route_time links) /\
          forall links', route graph s links' t -> route_time links <= route_time links'
    end.
Proof.
  intros Hpos.
  destruct (positive_run graph s time_of 0) with (nodes := link_ends graph) (t := t)
    as (fuel & r & Hrun & Hres).
  - intros k e He. exists (time e). split; [done|].
    pose proof (positive_times_link graph k e Hpos He). lia.
  - apply link_ends_NoDup.
  - apply link_ends_elem.
  - exists fuel, r. split.
    + intros fuel' Hle. destruct (Hrun fuel' Hle) as (st & Hsearch & Hfinish).
      unfold dijkstraFastest. by rewrite Hsearch.
    + destruct r as [|path w]; [done|].
      destruct Hres as (links & Hroute & -> & -> & Hleast).
      exists links. split; [done|]. split; [done|].
      rewrite route_weight_time. split; [done|].
      intros links' Hroute'. specialize (Hleast links' Hroute').
      by rewrite !route_weight_time in Hleast.
Qed.

(** X15. On a graph whose keys and link ends are plain, with every link
    taking 1 minute or more and twice the times of all links below 2^53:
    a request whose [fromBank] and [toBank] are both there, as plain
    strings, and that passes the check of the fastest route endpoint is
    answered 404 exactly when no route leads from [fromBank] to
    [toBank], otherwise 200 with the nodes along a route joined by arrows
    and the total time of that route, which no route undercuts. *)
Theorem fastestroute_answers (s t : string) :
  plain s -> plain t -> plain_graph graph -> exact_times graph ->
  positive_times graph ->
  rejected banks (Request (Bic s) (Bic t)) = false ->
  exists fuel resp,
    (forall fuel', (fuel <= fuel')%nat ->
       fastestroute banks graph fuel' (Request (Bic s) (Bic t)) = Some resp) /\
    match resp with
    | InvalidBank => False
    | NoPathFound => forall links, ~ route graph s links t
    | Route text w =>
        exists links, route graph s links t /\
          text = join (Bic s :: map (fun e => Bic (to e)) links) /\
          w = Num (route_time links) /\
          forall links', route graph s links' t -> route_time links <= route_time links'
    end.
Proof.
  intros _ _ _ _ Hpos Hpass.
  destruct (fastest_positive_run s t Hpos) as (fuel & r & Hrun & Hres).
  exists fuel, (respond r). split.
  - intros fuel' Hle. unfold fastestroute. rewrite Hpass. cbn [fromBank toBank].
    by rewrite (Hrun fuel' Hle).
  - destruct r as [|path w]; [done|]. simpl.
    destruct Hres as (links & Hroute & -> & -> & Hleast). by exists links.
Qed.

(** X16. When every link takes 1 minute or more, going by way of a third
    bank is never faster: if [dijkstraFastest] returns the time [a] from
    [s] to [u] and the time [b] from [u] to [t], it returns from [s] to
    [t] a time of at most [a + b]. *)
Theorem fastest_by_way_of (s u t : string) (fuel1 fuel2 : nat)
    (path1 path2 : list nodeid) (a b : Z) :
  positive_times graph ->
  dijkstraFastest graph fuel1 (Bic s) (Bic u) = Some (Found path1 (Num a)) ->
  dijkstraFastest graph fuel2 (Bic u) (Bic t) = Some (Found path2 (Num b)) ->
  exists fuel path c,
    (forall fuel', (fuel <= fuel')%nat ->
       dijkstraFastest graph fuel' (Bic s) (Bic t) = Some (Found path (Num c))) /\
    c <= a + b.
Proof.
  intros Hpos Hrun1 Hrun2.
  destruct (priced_found graph s time_of 0 fuel1 (Num 0) u path1 (Num a) eq_refl Hrun1)
    as (links1 & Hroute1 & _ & [= ->]).
  destruct (priced_found graph u time_of 0 fuel2 (Num 0) t path2 (Num b) eq_refl Hrun2)
    as (links2 & Hroute2 & _ & [= ->]).
  pose proof (route_app _ _ _ _ _ _ Hroute1 Hroute2) as Hroute.
  destruct (fastest_positive_run s t Hpos) as (fuel & [|path w] & Hrun & Hres).
  { by destruct (Hres _ Hroute). }
  destruct Hres as (links & _ & _ & -> & Hleast).
  exists fuel, path, (route_time links). split; [done|].
  specialize (Hleast _ Hroute). rewrite route_time_app in Hleast.
  rewrite (route_weight_time links1), (route_weight_time links2). lia.
Qed.

End PositiveTimes.

Section MoreLinks.
Context {H : Type} `{!Heap H}.

(** X17. Loading further links never makes the fastest time larger: if
    [dijkstraFastest] returns a time on a graph, and after more rows are
    loaded every link takes 1 minute or more, it returns on the larger
    graph a time that is not above the first. *)
Theorem fastest_after_more_links (rows : list (string * string * Z))
    (graph : gmap string (list edge)) (s t : string) (fuel0 : nat)
    (path0 : list nodeid) (a : Z) :
  positive_times (load_links rows graph) ->
  dijkstraFastest graph fuel0 (Bic s) (Bic t) = Some (Found path0 (Num a)) ->
  exists fuel path c,
    (forall fuel', (fuel <= fuel')%nat ->
       dijkstraFastest (load_links rows graph) fuel' (Bic s) (Bic t)
       = Some (Found path (Num c))) /\
    c <= a.
Proof.
  intros Hpos Hrun0.
  destruct (priced_found graph s time_of 0 fuel0 (Num 0) t path0 (Num a) eq_refl Hrun0)
    as (links0 & Hroute0 & _ & [= ->]).
  apply (route_load_links rows) in Hroute0.
  destruct (fastest_positive_run (load_links rows graph) s t Hpos)
    as (fuel & [|path w] & Hrun & Hres).
  { by destruct (Hres _ Hroute0). }
  destruct Hres as (links & _ & _ & -> & Hleast).
  exists fuel, path, (route_time links). split; [done|].
  specialize (Hleast _ Hroute0). rewrite (route_weight_time links0). lia.
Qed.

End MoreLinks.

(** ** Instances on the list queue *)

(** C3: a bank with charge 0 (A) and a node that only ends a link (C) are
    nodes of the store, and requests naming them are answered 400. *)
Lemma present_nodes_rejected :
  {[ "A"; "B"; "C" ]}%string ⊆ node_set banks_zero graph_abc /\
  banks_zero !! "A"%string = Some 0 /\
  fastestroute (H:=list entry) banks_zero graph_abc 9 (Request (Bic "A") (Bic "B"))
  = Some InvalidBank /\
  cheapestroute (H:=list entry) banks_zero graph_abc 9 (Request (Bic "A") (Bic "B"))
  = Some InvalidBank /\
  fastestroute (H:=list entry) banks_zero graph_abc 9 (Request (Bic "B") (Bic "C"))
  = Some InvalidBank /\
  cheapestroute (H:=list entry) banks_zero graph_abc 9 (Request (Bic "B") (Bic "C"))
  = Some InvalidBank.
Proof.
  split; [compute_done|].
  repeat split; by vm_compute.
Qed.

Lemma route_validation_witness :
  (fastestroute (H:=list entry) banks_121 graph_4_1_10 9 (Request (Bic "A") (Bic "Z"))
   = Some InvalidBank /\
   cheapestroute (H:=list entry) banks_121 graph_4_1_10 9 (Request (Bic "A") (Bic "Z"))
   = Some InvalidBank) /\
  (fastestroute (H:=list entry) banks_121 graph_4_1_10 9 (Request (Bic "A") (Bic "C"))
   = respond <$> dijkstraFastest (H:=list entry) graph_4_1_10 9 (Bic "A") (Bic "C") /\
   cheapestroute (H:=list entry) banks_121 graph_4_1_10 9 (Request (Bic "A") (Bic "C"))
   = respond <$> dijkstraCheapest (H:=list entry) banks_121 graph_4_1_10 9 (Bic "A") (Bic "C") /\
   fastestroute (H:=list entry) banks_121 graph_4_1_10 9 (Request (Bic "A") (Bic "C"))
   <> Some InvalidBank /\
   cheapestroute (H:=list entry) banks_121 graph_4_1_10 9 (Request (Bic "A") (Bic "C"))
   <> Some InvalidBank).
Proof.
  split.
  - apply (proj1 (route_validation (H:=list entry) banks_121 graph_4_1_10 9
                    (Request (Bic "A") (Bic "Z")))).
    right. split; [unfold plain; compute_done|]. vm_compute. reflexivity.
  - apply (proj2 (route_validation (H:=list entry) banks_121 graph_4_1_10 9
                    (Request (Bic "A") (Bic "C"))) 1 1).
    + unfold plain. compute_done.
    + unfold plain. compute_done.
    + vm_compute. reflexivity.
    + vm_compute. reflexivity.
    + lia.
    + lia.
Defined.

(** C9: with a bank stored under the BIC "undefined", a request without
    [fromBank] passes the check and is answered 200. *)
Lemma missing_field_accepted :
  fastestroute (H:=list entry) banks_undefined ∅ 9 (Request Missing (Bic "undefined"))
  = Some (Route " -> undefined" (Num 0)) /\
  cheapestroute (H:=list entry) banks_undefined ∅ 9 (Request Missing (Bic "undefined"))
  = Some (Route " -> undefined" (Num 1)).
Proof. split; by vm_compute. Qed.

Lemma missing_field_rejected_witness :
  fastestroute (H:=list entry) banks_121 graph_4_1_10 9 (Request Missing (Bic "C"))
  = Some InvalidBank /\
  cheapestroute (H:=list entry) banks_121 graph_4_1_10 9 (Request Missing (Bic "C"))
  = Some InvalidBank.
Proof.
  apply (missing_field_rejected (H:=list entry) banks_121 graph_4_1_10 9
           (Request Missing (Bic "C"))).
  - vm_compute. reflexivity.
  - left. reflexivity.
Defined.

Lemma cheapest_ignores_times_witness :
  dijkstraCheapest (H:=list entry) banks_121 graph_4_1_10 9 (Bic "A") (Bic "C")
  = dijkstraCheapest (H:=list entry) banks_121 graph_0_0_0 9 (Bic "A") (Bic "C") /\
  cheapestroute (H:=list entry) banks_121 graph_4_1_10 9 (Request (Bic "A") (Bic "C"))
  = cheapestroute (H:=list entry) banks_121 graph_0_0_0 9 (Request (Bic "A") (Bic "C")).
Proof.
  apply (cheapest_ignores_times (H:=list entry) banks_121 graph_4_1_10 graph_0_0_0 9
           (Bic "A") (Bic "C")).
  vm_compute. reflexivity.
Defined.

Lemma found_path_ends_witness :
  [Bic "A"; Bic "B"; Bic "C"] <> [] /\
  head [Bic "A"; Bic "B"; Bic "C"] = Some (Bic "A") /\
  last [Bic "A"; Bic "B"; Bic "C"] = Some (Bic "C").
Proof.
  apply (found_path_ends (H:=list entry) banks_121 graph_4_1_10 9 (Bic "A") (Bic "C")
           [Bic "A"; Bic "B"; Bic "C"] (Num 5)).
  left. vm_compute. reflexivity.
Defined.

(** The scenario of the specification, on the list queue. *)
Lemma scenario_4_1_10 :
  fastestroute (H:=list entry) banks_121 graph_4_1_10 9 (Request (Bic "A") (Bic "C"))
  = Some (Route "A -> B -> C" (Num 5)) /\
  cheapestroute (H:=list entry) banks_121 graph_4_1_10 9 (Request (Bic "A") (Bic "C"))
  = Some (Route "A -> C" (Num 2)).
Proof. split; by vm_compute. Qed.

(** The scenario of the specification meets the conditions of both
    theorems. *)
Lemma fastest_on_positive_times_witness :
  exists fuel r,
    (forall fuel', (fuel <= fuel')%nat ->
       dijkstraFastest (H:=list entry) graph_4_1_10 fuel' (Bic "A") (Bic "C") = Some r) /\
    match r with
    | NoPath => forall links, ~ route graph_4_1_10 "A" links "C"
    | Found path w =>
        exists links, route graph_4_1_10 "A" links "C" /\
          path = Bic "A" :: map (fun e => Bic (to e)) links /\
          w = Num (route_time links) /\
          forall links', route graph_4_1_10 "A" links' "C" ->
            route_time links <= route_time links'
    end.
Proof.
  apply (fastest_on_positive_times (H:=list entry) graph_4_1_10 "A" "C").
  - unfold plain; compute_done.
  - unfold plain; compute_done.
  - unfold plain_graph, plain; compute_done.
  - vm_compute; reflexivity.
  - unfold positive_times. compute_done.
Defined.

Lemma cheapest_on_charged_nodes_witness :
  exists fuel r,
    (forall fuel', (fuel <= fuel')%nat ->
       dijkstraCheapest (H:=list entry) banks_121 graph_4_1_10 fuel' (Bic "A") (Bic "C")
       = Some r) /\
    match r with
    | NoPath => forall links, ~ route graph_4_1_10 "A" links "C"
    | Found path w =>
        exists links, route graph_4_1_10 "A" links "C" /\
          path = Bic "A" :: map (fun e => Bic (to e)) links /\
          w = Num (1 + route_charges banks_121 links) /\
          forall links', route graph_4_1_10 "A" links' "C" ->
            route_charges banks_121 links <= route_charges banks_121 links'
    end.
Proof.
  apply (cheapest_on_charged_nodes (H:=list entry) banks_121 graph_4_1_10 "A" "C" 1).
  - unfold plain; compute_done.
  - unfold plain; compute_done.
  - unfold plain_graph, plain; compute_done.
  - vm_compute; reflexivity.
  - vm_compute. reflexivity.
  - lia.
  - unfold nonnegative_charges. compute_done.
Defined.

Lemma cheapestroute_answers_witness :
  exists fuel resp,
    (forall fuel', (fuel <= fuel')%nat ->
       cheapestroute (H:=list entry) banks_121 graph_4_1_10 fuel' (Request (Bic "A") (Bic "C"))
       = Some resp) /\
    match resp with
    | InvalidBank => False
    | NoPathFound => forall links, ~ route graph_4_1_10 "A" links "C"
    | Route text w =>
        exists links, route graph_4_1_10 "A" links "C" /\
          text = join (Bic "A" :: map (fun e => Bic (to e)) links) /\
          w = Num (charge_number banks_121 "A" + route_charges banks_121 links) /\
          forall links', route graph_4_1_10 "A" links' "C" ->
            route_charges banks_121 links <= route_charges banks_121 links'
    end.
Proof.
  apply (cheapestroute_answers (H:=list entry) banks_121 graph_4_1_10 "A" "C").
  - unfold plain; compute_done.
  - unfold plain; compute_done.
  - unfold plain_graph, plain; compute_done.
  - vm_compute; reflexivity.
  - compute_done.
  - unfold nonnegative_charges. compute_done.
  - vm_compute. reflexivity.
Defined.



Lemma same_bank_request_witness :
  fastestroute (H:=list entry) banks_121 graph_4_1_10 1 (Request (Bic "A") (Bic "A"))
  = Some (Route "A" (Num 0)) /\
  cheapestroute (H:=list entry) banks_121 graph_4_1_10 1 (Request (Bic "A") (Bic "A"))
  = Some (Route "A" (Num 1)).
Proof.
  apply (same_bank_request (H:=list entry) banks_121 graph_4_1_10 0 "A" 1).
  - vm_compute. reflexivity.
  - lia.
Defined.

Lemma found_path_no_repeat_witness : NoDup [Bic "A"; Bic "B"; Bic "C"].
Proof.
  apply (found_path_no_repeat (H:=list entry) banks_121 graph_4_1_10 9 (Bic "A") (Bic "C")
           [Bic "A"; Bic "B"; Bic "C"] (Num 5)).
  left. vm_compute. reflexivity.
Defined.

(** On the two parallel links of 0 and 5 minutes the time returned, 5, is
    not the least, and is the time of a route. *)
Lemma fastest_time_of_a_route_witness :
  exists links, route graph_0_5 "A" links "B" /\ Num 5 = Num (route_time links).
Proof.
  apply (fastest_time_of_a_route (H:=list entry) graph_0_5 9 "A" "B" [Bic "A"; Bic "B"] (Num 5)).
  - unfold plain; compute_done.
  - unfold plain; compute_done.
  - unfold plain_graph, plain; compute_done.
  - unfold nonnegative_times. compute_done.
  - vm_compute; reflexivity.
  - vm_compute. reflexivity.
Defined.


(** C ends two links of the scenario and begins none. *)
Lemma start_without_links_witness :
  dijkstraFastest (H:=list entry) graph_4_1_10 2 (Bic "C") (Bic "A") = Some NoPath /\
  dijkstraCheapest (H:=list entry) banks_121 graph_4_1_10 2 (Bic "C") (Bic "A") = Some NoPath.
Proof.
  apply (start_without_links (H:=list entry) banks_121 graph_4_1_10 0 (Bic "C") (Bic "A")).
  - unfold plain; compute_done.
  - unfold plain; compute_done.
  - vm_compute. reflexivity.
  - simpl. discriminate.
Defined.

(** With an empty charge table the links of the scenario are of no use. *)
Lemma cheapest_start_without_charge_witness :
  dijkstraCheapest (H:=list entry) ∅ graph_4_1_10 2 (Bic "A") (Bic "C") = Some NoPath.
Proof.
  apply (cheapest_start_without_charge (H:=list entry) ∅ graph_4_1_10 0 (Bic "A") (Bic "C")).
  - unfold plain; compute_done.
  - unfold plain; compute_done.
  - unfold plain_graph, plain; compute_done.
  - reflexivity.
  - simpl. discriminate.
Defined.

Lemma fastestroute_answers_witness :
  exists fuel resp,
    (forall fuel', (fuel <= fuel')%nat ->
       fastestroute (H:=list entry) banks_121 graph_4_1_10 fuel' (Request (Bic "A") (Bic "C"))
       = Some resp) /\
    match resp with
    | InvalidBank => False
    | NoPathFound => forall links, ~ route graph_4_1_10 "A" links "C"
    | Route text w =>
        exists links, route graph_4_1_10 "A" links "C" /\
          text = join (Bic "A" :: map (fun e => Bic (to e)) links) /\
          w = Num (route_time links) /\
          forall links', route graph_4_1_10 "A" links' "C" ->
            route_time links <= route_time links'
    end.
Proof.
  apply (fastestroute_answers (H:=list entry) banks_121 graph_4_1_10 "A" "C").
  - unfold plain; compute_done.
  - unfold plain; compute_done.
  - unfold plain_graph, plain; compute_done.
  - vm_compute; reflexivity.
  - unfold positive_times. compute_done.
  - vm_compute. reflexivity.
Defined.

Lemma fastest_by_way_of_witness :
  exists fuel path c,
    (forall fuel', (fuel <= fuel')%nat ->
       dijkstraFastest (H:=list entry) graph_4_1_10 fuel' (Bic "A") (Bic "C")
       = Some (Found path (Num c))) /\
    c <= 4 + 1.
Proof.
  apply (fastest_by_way_of (H:=list entry) graph_4_1_10 "A" "B" "C" 9 9
           [Bic "A"; Bic "B"] [Bic "B"; Bic "C"] 4 1).
  - unfold positive_times. compute_done.
  - vm_compute. reflexivity.
  - vm_compute. reflexivity.
Defined.

(** A link A -> C of 2 minutes is loaded on top of the scenario, where the
    fastest time from A to C is 5. *)
Lemma fastest_after_more_links_witness :
  exists fuel path c,
    (forall fuel', (fuel <= fuel')%nat ->
       dijkstraFastest (H:=list entry) (load_links [("A", "C", 2)]%string graph_4_1_10)
         fuel' (Bic "A") (Bic "C")
       = Some (Found path (Num c))) /\
    c <= 5.
Proof.
  apply (fastest_after_more_links (H:=list entry) [("A", "C", 2)]%string graph_4_1_10
           "A" "C" 9 [Bic "A"; Bic "B"; Bic "C"] 5).
  - unfold positive_times. compute_done.
  - vm_compute. reflexivity.
Defined.

Lemma missing_end_never_answered_witness :
  rejected banks_undefined (Request (Bic "undefined") Missing) = false /\
  fastestroute (H:=list entry) banks_undefined ∅ 9 (Request (Bic "undefined") Missing) = None /\
  cheapestroute (H:=list entry) banks_undefined ∅ 9 (Request (Bic "undefined") Missing) = None.
Proof.
  apply (missing_end_never_answered (H:=list entry) banks_undefined ∅ 9 1).
  - vm_compute. reflexivity.
  - lia.
  - reflexivity.
Defined.
